(** * State persistence: the text serializer of [bindings/c/state_persistence.c]

    A shallow embedding of [save_state] and [load_state] together with the
    parts of the C library they call ([fopen], [fprintf], [fgets],
    [strcspn], [strdup], [fscanf]), and the properties of the on-disk format
    that follow from the code.

    Conventions.
    - A byte is an [ascii]; a file is the [list ascii] of its bytes.
    - [uint32_t] and [uint64_t] fields are [N]; a field of type [uint32_t]
      holds a value below [2^32].  [int] results are [Z].
    - A [const char *] that the code dereferences ([name], [version]) is
      represented by the bytes it points to; the string it denotes is the
      part before the first NUL ([c_str]).  Pointers that are never
      dereferenced are kept as addresses.
    - A file system maps paths to contents and says which paths can be
      opened for reading and for writing. *)

From Stdlib Require Import NArith ZArith Lia Ascii String List.
From stdpp Require Import gmap strings list.

Set Default Proof Using "Type".

(** ** Characters and the C locale's character classes *)

Module Char.

Definition NUL : ascii := "000"%char.
Definition LF : ascii := "010"%char.

Definition code (c : ascii) : N := N_of_ascii c.

(** [isspace] in the C locale: space, and the controls 9 to 13. *)
Definition isspace (c : ascii) : bool :=
  ((code c =? 32) || ((9 <=? code c) && (code c <=? 13)))%N.

Definition isdigit (c : ascii) : bool :=
  ((48 <=? code c) && (code c <=? 57))%N.

Definition is_sign (c : ascii) : bool :=
  Ascii.eqb c "+"%char || Ascii.eqb c "-"%char.

Definition digit_value (c : ascii) : N := (code c - 48)%N.

Definition digit_char (d : N) : ascii := ascii_of_N (48 + d).

End Char.

Import Char.

(** ** Generic list scanning *)

Section Scan.
Context {A : Type} (p : A → bool).

Fixpoint take_while (l : list A) : list A :=
  match l with
  | [] => []
  | x :: l' => if p x then x :: take_while l' else []
  end.

Fixpoint drop_while (l : list A) : list A :=
  match l with
  | [] => []
  | x :: l' => if p x then drop_while l' else l
  end.
End Scan.

(** ** C strings *)

Module CStr.

Definition not_nul (c : ascii) : bool := negb (Ascii.eqb c NUL).

(** The string held by a buffer: its bytes before the first NUL. *)
Definition c_str (buf : list ascii) : list ascii := take_while not_nul buf.

(** [strcspn s reject]: length of the longest initial segment of the string
    [s] that has no byte of the string [reject]. *)
Definition strcspn (s reject : list ascii) : nat :=
  length (take_while
            (λ c, not_nul c && negb (existsb (Ascii.eqb c) (c_str reject))) s).

(** [strdup s]: a fresh copy of the string in [s]. *)
Definition strdup (s : list ascii) : list ascii := c_str s.

End CStr.

Import CStr.

(** ** Unsigned decimal conversions *)

Module Dec.

(** [%u] on output: the decimal digits of [n], most significant first,
    without leading zeros ("0" for zero).  [fuel] bounds the number of
    digits produced. *)
Fixpoint utoa_go (fuel : nat) (n : N) (acc : list ascii) : list ascii :=
  match fuel with
  | O => acc
  | S fuel' =>
      let acc' := digit_char (n mod 10) :: acc in
      if (n / 10 =? 0)%N then acc' else utoa_go fuel' (n / 10) acc'
  end.

Definition utoa (n : N) : list ascii := utoa_go (S (N.to_nat (N.log2 n))) n [].

(** Value of a run of decimal digits read left to right from [acc]. *)
Definition digits_value (acc : N) (ds : list ascii) : N :=
  fold_left (λ a c, (10 * a + digit_value c)%N) ds acc.

(** What [strtoul] makes of a sign and a digit run on an LP64 target, and
    what is left of it in an [unsigned int]: out-of-range magnitudes give
    [ULONG_MAX], a minus sign negates modulo [2^64], and the store keeps the
    low 32 bits. *)
Definition ULONG_MAX : N := 2 ^ 64 - 1.

Definition strtoul_value (negative : bool) (magnitude : N) : N :=
  if (ULONG_MAX <? magnitude)%N then ULONG_MAX
  else if negative then ((2 ^ 64 - magnitude) mod 2 ^ 64)%N
  else magnitude.

Definition to_uint32 (n : N) : N := (n mod 2 ^ 32)%N.

End Dec.

Import Dec.

(** ** The application state record ([state_persistence.h]) *)

Definition ptr := N.

Record AppConfig := {
  app_name : ptr;
  max_ram_usage : N;
  max_cpu_usage : N;
  environment : ptr;
  debug_mode : Z;
  log_level : ptr;
  git : ptr;
  database : ptr;
  aggregator : ptr;
}.

Record AppState := {
  name : list ascii;
  version : list ascii;
  data : ptr;
  status : ptr;
  pid : N;
  last_updated : N;
  stared_at : N;
  event_counter : N;
  error_log : ptr;
  error_log_len : N;
  config : AppConfig;
  system_application : Z;
  stdout_entries : ptr;
  stdout_len : N;
  stderr_entries : ptr;
  stderr_len : N;
}.

(** Assignments to the four fields that [load_state] writes. *)
Definition set_name (v : list ascii) (s : AppState) : AppState :=
  {| name := v; version := version s; data := data s; status := status s;
     pid := pid s; last_updated := last_updated s; stared_at := stared_at s;
     event_counter := event_counter s; error_log := error_log s;
     error_log_len := error_log_len s; config := config s;
     system_application := system_application s;
     stdout_entries := stdout_entries s; stdout_len := stdout_len s;
     stderr_entries := stderr_entries s; stderr_len := stderr_len s |}.

Definition set_version (v : list ascii) (s : AppState) : AppState :=
  {| name := name s; version := v; data := data s; status := status s;
     pid := pid s; last_updated := last_updated s; stared_at := stared_at s;
     event_counter := event_counter s; error_log := error_log s;
     error_log_len := error_log_len s; config := config s;
     system_application := system_application s;
     stdout_entries := stdout_entries s; stdout_len := stdout_len s;
     stderr_entries := stderr_entries s; stderr_len := stderr_len s |}.

Definition set_pid (v : N) (s : AppState) : AppState :=
  {| name := name s; version := version s; data := data s; status := status s;
     pid := v; last_updated := last_updated s; stared_at := stared_at s;
     event_counter := event_counter s; error_log := error_log s;
     error_log_len := error_log_len s; config := config s;
     system_application := system_application s;
     stdout_entries := stdout_entries s; stdout_len := stdout_len s;
     stderr_entries := stderr_entries s; stderr_len := stderr_len s |}.

Definition set_event_counter (v : N) (s : AppState) : AppState :=
  {| name := name s; version := version s; data := data s; status := status s;
     pid := pid s; last_updated := last_updated s; stared_at := stared_at s;
     event_counter := v; error_log := error_log s;
     error_log_len := error_log_len s; config := config s;
     system_application := system_application s;
     stdout_entries := stdout_entries s; stdout_len := stdout_len s;
     stderr_entries := stderr_entries s; stderr_len := stderr_len s |}.

(** ** Files and streams *)

Module Stdio.

Record filesystem := {
  fs_files : gmap string (list ascii);
  fs_readable : string → bool;
  fs_writable : string → bool;
}.

Definition EOF : Z := (-1)%Z.

(** [fopen path "r"]: the stream is the unread part of the file. *)
Definition fopen_r (path : string) (fs : filesystem) : option (list ascii) :=
  if fs_readable fs path then fs_files fs !! path else None.

(** [fopen path "w"]: creates the file or truncates it to length zero. *)
Definition fopen_w (path : string) (fs : filesystem) : option filesystem :=
  if fs_writable fs path
  then Some {| fs_files := <[path := []]> (fs_files fs);
               fs_readable := fs_readable fs;
               fs_writable := fs_writable fs |}
  else None.

(** Output on a stream opened for writing appends to the file. *)
Definition fputs (bytes : list ascii) (path : string) (fs : filesystem)
  : filesystem :=
  {| fs_files := alter (λ old, old ++ bytes) path (fs_files fs);
     fs_readable := fs_readable fs;
     fs_writable := fs_writable fs |}.

(** [fgets buf size f] reads bytes until [size - 1] of them are stored, or
    a newline has been stored, or the stream ends. *)
Fixpoint read_line (room : nat) (f : list ascii) : list ascii * list ascii :=
  match room, f with
  | O, _ => ([], f)
  | _, [] => ([], [])
  | S room', c :: f' =>
      if Ascii.eqb c LF then ([c], f')
      else let '(l, rest) := read_line room' f' in (c :: l, rest)
  end.

(** The result is [None] for the null pointer (end of file and nothing
    read); otherwise the buffer, with its terminating NUL, and the stream. *)
Definition fgets (size : nat) (f : list ascii)
  : option (list ascii * list ascii) :=
  match f with
  | [] => None
  | _ => let '(l, rest) := read_line (size - 1) f in Some (l ++ [NUL], rest)
  end.

(** One [%u] conversion of [fscanf]: leading white space is skipped; the
    end of the stream at that point is an input failure; then an optional
    sign and the longest run of digits are taken, and no digit at all is a
    matching failure.  The stream is left right after the digits. *)
Inductive conversion :=
  | InputFailure
  | MatchingFailure
  | Converted (value : N) (rest : list ascii).

Definition scan_u (f : list ascii) : conversion :=
  match drop_while isspace f with
  | [] => InputFailure
  | c :: f' =>
      let body := if is_sign c then f' else c :: f' in
      let ds := take_while isdigit body in
      match ds with
      | [] => MatchingFailure
      | _ => Converted
               (to_uint32
                  (strtoul_value (Ascii.eqb c "-"%char) (digits_value 0 ds)))
               (drop_while isdigit body)
      end
  end.

End Stdio.

Import Stdio.

(** ** [save_state] *)

(** The bytes that [fprintf] produces for the format ["%s\n%s\n%u\n%u\n"]
    and the four persisted fields. *)
Definition format_state (state : AppState) : list ascii :=
  c_str (name state) ++ [LF] ++ c_str (version state) ++ [LF]
  ++ utoa (pid state) ++ [LF] ++ utoa (event_counter state) ++ [LF].

(** The result of [fprintf] is not looked at by the code. *)
Definition save_state (state : AppState) (path : string) (fs : filesystem)
  : Z * filesystem :=
  match fopen_w path fs with
  | None => ((-1)%Z, fs)
  | Some fs' => (0%Z, fputs (format_state state) path fs')
  end.

(** ** [load_state] *)

(** [fscanf(f, "%u\n%u\n", &state->pid, &state->event_counter)]: each
    conversion stores as soon as it succeeds; white space in the format
    matches any amount of white space in the input. *)
Definition fscanf_u_u (f : list ascii) (state : AppState) : Z * AppState :=
  match scan_u f with
  | InputFailure => (EOF, state)
  | MatchingFailure => (0%Z, state)
  | Converted v1 f1 =>
      let state1 := set_pid v1 state in
      match scan_u (drop_while isspace f1) with
      | Converted v2 _ => (2%Z, set_event_counter v2 state1)
      | _ => (1%Z, state1)
      end
  end.

(** The four [return] statements of [load_state], in source order. *)
Inductive load_exit := ExitOpen | ExitLines | ExitNumeric | ExitOk.

Definition exit_status (e : load_exit) : Z :=
  match e with ExitOk => 0%Z | _ => (-1)%Z end.

(** [load_state], with the [return] statement it leaves by in place of the
    status: the caller's record is threaded through the assignments. *)
Definition load_state_at (state : AppState) (path : string) (fs : filesystem)
  : load_exit * AppState :=
  match fopen_r path fs with
  | None => (ExitOpen, state)
  | Some f =>
      match fgets 256 f with
      | None => (ExitLines, state)
      | Some (name_buf, f1) =>
          match fgets 256 f1 with
          | None => (ExitLines, state)
          | Some (version_buf, f2) =>
              let name_buf := <[strcspn name_buf [LF] := NUL]> name_buf in
              let version_buf :=
                <[strcspn version_buf [LF] := NUL]> version_buf in
              let state := set_name (strdup name_buf) state in
              let state := set_version (strdup version_buf) state in
              let '(n, state) := fscanf_u_u f2 state in
              if (n =? 2)%Z then (ExitOk, state) else (ExitNumeric, state)
          end
      end
  end.

(** [load_state] as the caller sees it: the status and the record. *)
Definition load_state (state : AppState) (path : string) (fs : filesystem)
  : Z * AppState :=
  let '(e, state') := load_state_at state path fs in (exit_status e, state').

(** ** Concrete data used in the examples *)

Definition bytes (s : string) : list ascii := list_ascii_of_string s.

Definition null_config : AppConfig :=
  {| app_name := 0%N; max_ram_usage := 0%N; max_cpu_usage := 0%N;
     environment := 0%N; debug_mode := 0%Z; log_level := 0%N;
     git := 0%N; database := 0%N; aggregator := 0%N |}.

Definition blank_state : AppState :=
  {| name := []; version := []; data := 0%N; status := 0%N; pid := 0%N;
     last_updated := 0%N; stared_at := 0%N; event_counter := 0%N;
     error_log := 0%N; error_log_len := 0%N; config := null_config;
     system_application := 0%Z; stdout_entries := 0%N; stdout_len := 0%N;
     stderr_entries := 0%N; stderr_len := 0%N |}.

(** A record as the host holds it, every field set. *)
Definition host_config : AppConfig :=
  {| app_name := 4096%N; max_ram_usage := 1024%N; max_cpu_usage := 90%N;
     environment := 4112%N; debug_mode := 1%Z; log_level := 4128%N;
     git := 4144%N; database := 4160%N; aggregator := 4176%N |}.

Definition host_state : AppState :=
  {| name := list_ascii_of_string "old"; version := list_ascii_of_string "0.9";
     data := 8192%N; status := 8208%N; pid := 17%N;
     last_updated := 1700000000%N; stared_at := 1600000000%N;
     event_counter := 3%N; error_log := 8224%N; error_log_len := 2%N;
     config := host_config; system_application := 1%Z;
     stdout_entries := 8240%N; stdout_len := 5%N;
     stderr_entries := 8256%N; stderr_len := 1%N |}.

Definition mk_state (n v : string) (p e : N) : AppState :=
  set_event_counter e (set_pid p (set_version (bytes v) (set_name (bytes n) blank_state))).

Definition agent_state : AppState := mk_state "agent" "1.0.0" 4242 7.

Definition agent_file : list ascii :=
  bytes "agent" ++ [LF] ++ bytes "1.0.0" ++ [LF]
  ++ bytes "4242" ++ [LF] ++ bytes "7" ++ [LF].

Definition open_fs (files : gmap string (list ascii)) : filesystem :=
  {| fs_files := files; fs_readable := λ _, true; fs_writable := λ _, true |}.

Definition one_file (path : string) (content : list ascii) : filesystem :=
  open_fs {[ path := content ]}.

(** ** Vocabulary of the statements *)

Definition not_lf (c : ascii) : bool := negb (Ascii.eqb c LF).

(** A byte that is part of a line's text: neither NUL nor newline. *)
Definition text_byte (c : ascii) : bool := not_nul c && not_lf c.

Definition no_newline (s : list ascii) : Prop := forallb not_lf s = true.

(** The strings that the [name] and [version] pointers of a record denote. *)
Definition name_str (s : AppState) : list ascii := c_str (name s).
Definition version_str (s : AppState) : list ascii := c_str (version s).

(** A line that [fgets] reads whole, newline included, into 256 bytes. *)
Definition fits_buffer (l : list ascii) : Prop := length l ≤ 254.

(** Agreement of two records outside the four persisted fields. *)
Definition same_unpersisted (a b : AppState) : Prop :=
  data a = data b ∧ status a = status b
  ∧ last_updated a = last_updated b ∧ stared_at a = stared_at b
  ∧ error_log a = error_log b ∧ error_log_len a = error_log_len b
  ∧ config a = config b ∧ system_application a = system_application b
  ∧ stdout_entries a = stdout_entries b ∧ stdout_len a = stdout_len b
  ∧ stderr_entries a = stderr_entries b ∧ stderr_len a = stderr_len b.

(** The lines of a file: the runs of bytes between newlines; a last run
    without newline counts as a line. *)
Fixpoint lines (f : list ascii) : list (list ascii) :=
  match f with
  | [] => []
  | c :: f' =>
      if Ascii.eqb c LF then [] :: lines f'
      else match lines f' with
           | [] => [[c]]
           | l :: ls => (c :: l) :: ls
           end
  end.

(** The file made of the given lines, each followed by one newline. *)
Definition unlines (ls : list (list ascii)) : list ascii :=
  concat (map (λ l, l ++ [LF]) ls).

Definition newline_count (f : list ascii) : nat :=
  length (filter (λ c, c = LF) f).

Definition first_line (f : list ascii) : list ascii := take_while not_lf f.

Definition after_first_line (f : list ascii) : list ascii :=
  tail (drop_while not_lf f).

Definition second_line (f : list ascii) : list ascii :=
  first_line (after_first_line f).

(** A file that is one line, with or without its newline. *)
Definition single_line (f : list ascii) : Prop :=
  ∃ l, no_newline l ∧ (f = l ∨ f = l ++ [LF]).

Definition proper_prefix (a b : list ascii) : Prop :=
  a `prefix_of` b ∧ length a < length b.

(** The input syntax of one [%u]: white space, an optional sign, a maximal
    non-empty run of digits; [r] is what follows. *)
Definition parses_uint (s r : list ascii) : Prop :=
  ∃ ws sg ds,
    s = ws ++ sg ++ ds ++ r
    ∧ forallb isspace ws = true
    ∧ (sg = [] ∨ sg = ["+"%char] ∨ sg = ["-"%char])
    ∧ ds ≠ [] ∧ forallb isdigit ds = true
    ∧ take_while isdigit r = [].

(** Two such integers in a row. *)
Definition two_uints (s : list ascii) : Prop :=
  ∃ r1 r2, parses_uint s r1 ∧ parses_uint r1 r2.

(** The numeric stage of [load_state] and the two exits after it. *)
Definition scanned (f : list ascii) (s : AppState) : load_exit * AppState :=
  let '(n, s') := fscanf_u_u f s in
  if (n =? 2)%Z then (ExitOk, s') else (ExitNumeric, s').

(** The round-trip law without a bound on the length of the strings. *)
Definition roundtrip_as_stated
  (s s0 : AppState) (path : string) (fs : filesystem) : Prop :=
  no_newline (name_str s) → no_newline (version_str s) →
  (pid s < 2 ^ 32)%N → (event_counter s < 2 ^ 32)%N →
  fs_writable fs path = true → fs_readable fs path = true →
  ∃ s', load_state s0 path (save_state s path fs).2 = (0%Z, s')
        ∧ name_str s' = name_str s ∧ version_str s' = version_str s
        ∧ pid s' = pid s ∧ event_counter s' = event_counter s.

(** A record whose name has 255 bytes, one more than a line buffer takes
    together with its newline. *)
Definition long_name_state : AppState :=
  set_name (repeat "a"%char 255) agent_state.

(** A record whose name holds a newline. *)
Definition two_line_name_state : AppState :=
  set_name (bytes "two" ++ [LF] ++ bytes "lines") agent_state.

(** What the two [fgets] calls take from a stream [f]: the bytes put in
    the name buffer, the stream after them, the bytes put in the version
    buffer, and the stream left for [fscanf]. *)
Definition name_chunk (f : list ascii) : list ascii := (read_line 255 f).1.
Definition after_name (f : list ascii) : list ascii := (read_line 255 f).2.
Definition version_chunk (f : list ascii) : list ascii :=
  (read_line 255 (after_name f)).1.
Definition numbers (f : list ascii) : list ascii :=
  (read_line 255 (after_name f)).2.

(** The record after the two string assignments of [load_state]. *)
Definition with_strings (f : list ascii) (s : AppState) : AppState :=
  set_version (take_while text_byte (version_chunk f))
    (set_name (take_while text_byte (name_chunk f)) s).

(** "A failed [load_state] leaves the record as it was", without regard to
    the stage that failed. *)
Definition failure_atomic_as_stated
  (s : AppState) (path : string) (fs : filesystem) : Prop :=
  (load_state s path fs).1 = (-1)%Z → (load_state s path fs).2 = s.

(** A file with two good lines and a third one that is not numeric. *)
Definition malformed_file : list ascii :=
  bytes "new" ++ [LF] ++ bytes "v" ++ [LF] ++ bytes "abc def" ++ [LF].

(** "A one-line file cannot be loaded", whatever the length of the line. *)
Definition single_line_fails_as_stated
  (s : AppState) (path : string) (fs : filesystem) (f : list ascii) : Prop :=
  fopen_r path fs = Some f → single_line f →
  (load_state s path fs).1 = (-1)%Z.

(** One line of 513 bytes and no newline: two runs of 255 letters and the
    text "1 2". *)
Definition long_single_line : list ascii :=
  repeat "a"%char 255 ++ repeat "b"%char 255 ++ bytes "1 2".

(** "A third line without two integers cannot be loaded": the two good
    lines [l1] and [l2] are followed by a line [l3] in which [%u] does not
    find two integers, and by the rest of the file. *)
Definition third_line_fails_as_stated
  (s : AppState) (path : string) (fs : filesystem)
  (l1 l2 l3 rest : list ascii) : Prop :=
  fopen_r path fs = Some (l1 ++ LF :: l2 ++ LF :: l3 ++ LF :: rest) →
  no_newline l1 → fits_buffer l1 → no_newline l2 → fits_buffer l2 →
  no_newline l3 → ¬ two_uints l3 →
  (load_state s path fs).1 = (-1)%Z.

(** "An overlong name or version line is cut to a proper prefix of itself
    in its own field, and the line stage does not fail for it." *)
Definition truncation_as_stated
  (s : AppState) (path : string) (fs : filesystem) (f : list ascii) : Prop :=
  fopen_r path fs = Some f →
  (256 < length (first_line f) →
   ((load_state_at s path fs).1 = ExitOk
    ∨ (load_state_at s path fs).1 = ExitNumeric)
   ∧ proper_prefix (name (load_state_at s path fs).2) (first_line f))
  ∧ (256 < length (second_line f) →
     ((load_state_at s path fs).1 = ExitOk
      ∨ (load_state_at s path fs).1 = ExitNumeric)
     ∧ proper_prefix (version (load_state_at s path fs).2) (second_line f)).

(** Two lines of 300 bytes each, then the two numbers. *)
Definition two_long_lines : list ascii :=
  repeat "a"%char 300 ++ [LF] ++ repeat "b"%char 300 ++ [LF]
  ++ bytes "1" ++ [LF] ++ bytes "2" ++ [LF].

(** A short name line, then a version line of 300 bytes, then the numbers. *)
Definition long_version_line : list ascii :=
  bytes "agent" ++ [LF] ++ repeat "b"%char 300 ++ [LF]
  ++ bytes "1" ++ [LF] ++ bytes "2" ++ [LF].

(** ** Decimal numerals, as read by a person *)

(** The digit a character stands for. *)
Definition numeral_digit (c : ascii) : N :=
  match c with
  | "0" => 0 | "1" => 1 | "2" => 2 | "3" => 3 | "4" => 4
  | "5" => 5 | "6" => 6 | "7" => 7 | "8" => 8 | "9" => 9
  | _ => 0
  end%char%N.

(** The value of a numeral in positional notation, the most significant
    digit first. *)
Fixpoint decimal_value (ds : list ascii) : N :=
  match ds with
  | [] => 0%N
  | d :: ds' =>
      (numeral_digit d * 10 ^ N.of_nat (length ds') + decimal_value ds')%N
  end.

(** [ds] is the decimal numeral of [n]: one digit at least, digits only, no
    leading zero unless the numeral is "0", and of value [n]. *)
Definition decimal_numeral (n : N) (ds : list ascii) : Prop :=
  ds ≠ [] ∧ forallb isdigit ds = true
  ∧ (ds = ["0"%char] ∨ head ds ≠ Some "0"%char)
  ∧ decimal_value ds = n.

(** Where the numeric stage starts when the name line is longer than a line
    buffer: behind the newline of the name line when the second [fgets]
    reaches it (a name line of fewer than 510 bytes), and at byte 510 of the
    file, still inside the name line or at its newline, otherwise. *)
Definition after_long_name (f : list ascii) : list ascii :=
  if length (first_line f) <? 510 then after_first_line f else drop 510 f.

(** A name line of 515 bytes: 510 letters and the text "1 2 x". *)
Definition name_line_with_numbers : list ascii :=
  repeat "a"%char 510 ++ bytes "1 2 x" ++ [LF] ++ bytes "v" ++ [LF]
  ++ bytes "3" ++ [LF] ++ bytes "4" ++ [LF].

(** ** Further example data *)

(** The two numbers on one line, separated by a space, as a hand-written
    file may have them. *)
Definition one_line_numbers_file : list ascii :=
  bytes "agent" ++ [LF] ++ bytes "1.0.0" ++ [LF] ++ bytes "4242 7" ++ [LF].

(** A first number and then something that is no number. *)
Definition half_numeric_file : list ascii :=
  bytes "new" ++ [LF] ++ bytes "v" ++ [LF] ++ bytes "12 abc" ++ [LF].

(** * Properties *)

(** ** Scanning lists *)

Section ScanFacts.
Context {A : Type} (p : A → bool).

Lemma take_drop_while l : take_while p l ++ drop_while p l = l.
Proof. induction l as [|x l IH]; simpl; [done|]. destruct (p x); simpl; by f_equal. Qed.

Lemma take_while_forallb l : forallb p (take_while p l) = true.
Proof.
  induction l as [|x l IH]; simpl; [done|].
  destruct (p x) eqn:E; simpl; [|done]. by rewrite E.
Qed.

Lemma take_while_all l : forallb p l = true → take_while p l = l.
Proof.
  induction l as [|x l IH]; simpl; [done|].
  intros [-> H]%andb_prop. by rewrite IH.
Qed.

Lemma take_while_app l r :
  forallb p l = true → take_while p (l ++ r) = l ++ take_while p r.
Proof.
  induction l as [|x l IH]; simpl; [done|].
  intros [-> H]%andb_prop. by rewrite IH.
Qed.

Lemma drop_while_app l r :
  forallb p l = true → drop_while p (l ++ r) = drop_while p r.
Proof.
  induction l as [|x l IH]; simpl; [done|].
  intros [-> H]%andb_prop. by apply IH.
Qed.

Lemma drop_while_head l x r : drop_while p l = x :: r → p x = false.
Proof.
  induction l as [|y l IH]; simpl; [done|].
  destruct (p y) eqn:E; [done|]. intros [= -> _]. done.
Qed.

Lemma drop_while_idem l : drop_while p (drop_while p l) = drop_while p l.
Proof.
  destruct (drop_while p l) as [|x r] eqn:E; [done|].
  simpl. by rewrite (drop_while_head _ _ _ E).
Qed.

Lemma take_while_prefix l : take_while p l `prefix_of` l.
Proof. exists (drop_while p l). by rewrite take_drop_while. Qed.

Lemma take_while_length l : length (take_while p l) ≤ length l.
Proof. apply prefix_length, take_while_prefix. Qed.
End ScanFacts.

Lemma forallb_impl {A} (p q : A → bool) l :
  (∀ x, p x = true → q x = true) → forallb p l = true → forallb q l = true.
Proof.
  intros Hpq. induction l as [|x l IH]; simpl; [done|].
  intros [Hx Hl]%andb_prop. by rewrite (Hpq _ Hx), IH.
Qed.

Lemma forallb_take {A} (p : A → bool) n l :
  forallb p l = true → forallb p (take n l) = true.
Proof.
  revert n. induction l as [|x l IH]; intros [|n]; simpl; try done.
  intros [-> Hl]%andb_prop. by apply IH.
Qed.

(** ** Character classes *)

Ltac by_cases_on_byte c :=
  destruct c as [[] [] [] [] [] [] [] []]; vm_compute; done.

Lemma isdigit_not_space c : isdigit c = true → isspace c = false.
Proof. by_cases_on_byte c. Qed.

Lemma isdigit_not_sign c : isdigit c = true → is_sign c = false.
Proof. by_cases_on_byte c. Qed.

Lemma isdigit_not_lf c : isdigit c = true → not_lf c = true.
Proof. by_cases_on_byte c. Qed.

Lemma is_sign_not_space c : is_sign c = true → isspace c = false.
Proof. by_cases_on_byte c. Qed.

Lemma not_lf_true c : not_lf c = true ↔ c ≠ LF.
Proof.
  unfold not_lf. destruct (Ascii.eqb_spec c LF); simpl; split; congruence.
Qed.

Lemma digit_value_char d : (d < 10)%N → digit_value (digit_char d) = d.
Proof.
  intros H. unfold digit_value, digit_char, code.
  rewrite N_ascii_embedding by lia. lia.
Qed.

Lemma isdigit_digit_char d : (d < 10)%N → isdigit (digit_char d) = true.
Proof.
  intros H. unfold isdigit, digit_char, code.
  rewrite N_ascii_embedding by lia.
  apply andb_true_intro; split; apply N.leb_le; lia.
Qed.

(** ** Decimal output and input agree *)

Lemma digits_value_snoc a ds d :
  digits_value a (ds ++ [d]) = (10 * digits_value a ds + digit_value d)%N.
Proof. unfold digits_value. by rewrite fold_left_app. Qed.

Lemma utoa_go_spec fuel : ∀ n acc,
  (n < 2 ^ N.of_nat fuel)%N → (0 < fuel)%nat →
  ∃ ds, utoa_go fuel n acc = ds ++ acc ∧ ds ≠ []
        ∧ forallb isdigit ds = true ∧ digits_value 0 ds = n.
Proof.
  induction fuel as [|fuel IH]; intros n acc Hn Hfuel; [lia|].
  assert (Hd : (n mod 10 < 10)%N) by (apply N.mod_lt; lia).
  simpl. destruct (N.eqb_spec (n / 10) 0) as [Hq|Hq].
  - exists [digit_char (n mod 10)]. repeat split; [done| |].
    + simpl. by rewrite isdigit_digit_char.
    + unfold digits_value; simpl. rewrite digit_value_char by done.
      pose proof (N.div_mod n 10). lia.
  - rewrite Nat2N.inj_succ, N.pow_succ_r' in Hn.
    assert (fuel ≠ 0%nat).
    { intros ->. simpl in Hn. apply Hq, N.div_small. lia. }
    destruct (IH (n / 10)%N (digit_char (n mod 10) :: acc))
      as (ds & Heq & Hne & Hdig & Hval); [|lia|].
    { apply N.Div0.div_lt_upper_bound. lia. }
    exists (ds ++ [digit_char (n mod 10)]). repeat split.
    + by rewrite Heq, <- app_assoc.
    + by destruct ds.
    + rewrite forallb_app, Hdig. simpl. by rewrite isdigit_digit_char.
    + rewrite digits_value_snoc, Hval, digit_value_char by done.
      pose proof (N.div_mod n 10). lia.
Qed.

Lemma utoa_spec n :
  utoa n ≠ [] ∧ forallb isdigit (utoa n) = true ∧ digits_value 0 (utoa n) = n.
Proof.
  destruct (utoa_go_spec (S (N.to_nat (N.log2 n))) n []) as (ds & Heq & ?);
    [|lia|].
  - rewrite Nat2N.inj_succ, N2Nat.id.
    destruct (N.eq_dec n 0%N) as [->|]; [done|].
    apply N.log2_spec. lia.
  - unfold utoa. rewrite Heq, app_nil_r. done.
Qed.

Lemma utoa_digits n : forallb isdigit (utoa n) = true.
Proof. apply utoa_spec. Qed.

Lemma utoa_value n : digits_value 0 (utoa n) = n.
Proof. apply utoa_spec. Qed.

Lemma utoa_not_nil n : utoa n ≠ [].
Proof. apply utoa_spec. Qed.

Lemma utoa_no_lf n : forallb not_lf (utoa n) = true.
Proof. eapply forallb_impl; [apply isdigit_not_lf|apply utoa_digits]. Qed.

Lemma to_uint32_small n : (n < 2 ^ 32)%N → to_uint32 (strtoul_value false n) = n.
Proof.
  intros H. unfold strtoul_value, to_uint32, ULONG_MAX.
  destruct (N.ltb_spec (2 ^ 64 - 1) n) as [Hbig|_].
  - assert (2 ^ 32 < 2 ^ 64 - 1)%N by done. lia.
  - by apply N.mod_small.
Qed.

(** A run of digits, followed by something that is not a digit, is converted
    to its value, and the stream stops right after it. *)
Lemma scan_u_digits ds r :
  ds ≠ [] → forallb isdigit ds = true → take_while isdigit r = [] →
  scan_u (ds ++ r)
  = Converted (to_uint32 (strtoul_value false (digits_value 0 ds))) r.
Proof.
  intros Hne Hds Hr. destruct ds as [|d ds]; [done|].
  simpl in Hds. apply andb_prop in Hds as [Hd Hds].
  unfold scan_u. simpl.
  rewrite (isdigit_not_space _ Hd), (isdigit_not_sign _ Hd). simpl.
  rewrite Hd. rewrite take_while_app, Hr, app_nil_r by done.
  rewrite drop_while_app by done.
  pose proof (take_drop_while isdigit r) as Hsplit. rewrite Hr in Hsplit.
  simpl in Hsplit. rewrite Hsplit.
  pose proof (isdigit_not_sign _ Hd) as Hs. unfold is_sign in Hs.
  apply orb_false_elim in Hs as [_ ->]. done.
Qed.

Lemma scan_u_utoa n r :
  (n < 2 ^ 32)%N → take_while isdigit r = [] →
  scan_u (utoa n ++ r) = Converted n r.
Proof.
  intros Hn Hr.
  rewrite scan_u_digits by auto using utoa_not_nil, utoa_digits.
  by rewrite utoa_value, to_uint32_small.
Qed.

(** ** Reading lines *)

Lemma read_line_newline room l rest :
  no_newline l → length l < room →
  read_line room (l ++ LF :: rest) = (l ++ [LF], rest).
Proof.
  revert room. induction l as [|c l IH]; intros [|room] Hl Hlen;
    simpl in *; try lia; [done|].
  apply andb_prop in Hl as [Hc Hl]. unfold not_lf in Hc.
  apply negb_true_iff in Hc. rewrite Hc, IH; [done|done|lia].
Qed.

Lemma read_line_eof room l :
  no_newline l → length l ≤ room → read_line room l = (l, []).
Proof.
  revert room. induction l as [|c l IH]; intros [|room] Hl Hlen;
    simpl in *; try lia; try done.
  apply andb_prop in Hl as [Hc Hl]. unfold not_lf in Hc.
  apply negb_true_iff in Hc. rewrite Hc, IH; [done|done|lia].
Qed.

Lemma read_line_full room f :
  no_newline (take room f) → room ≤ length f →
  read_line room f = (take room f, drop room f).
Proof.
  revert f. induction room as [|room IH]; intros [|c f] Hl Hlen;
    simpl in *; try lia; try done.
  apply andb_prop in Hl as [Hc Hl]. unfold not_lf in Hc.
  apply negb_true_iff in Hc. rewrite Hc, IH; [done|done|lia].
Qed.

Lemma read_line_single room f :
  single_line f → length f ≤ room → read_line room f = (f, []).
Proof.
  intros (l & Hl & [->| ->]) Hlen; [by apply read_line_eof|].
  rewrite length_app in Hlen. simpl in Hlen.
  apply read_line_newline; [done|lia].
Qed.

Lemma take_while_ext {A} (p q : A → bool) l :
  (∀ x, p x = q x) → take_while p l = take_while q l.
Proof.
  intros Hpq. induction l as [|x l IH]; simpl; [done|].
  by rewrite Hpq, IH.
Qed.

Lemma strcspn_lf s : strcspn s [LF] = length (take_while text_byte s).
Proof.
  unfold strcspn. f_equal. apply take_while_ext. intros c.
  unfold text_byte, not_lf. simpl. by rewrite orb_false_r.
Qed.

(** Cutting a buffer at its first newline and copying the string leaves the
    bytes before the first NUL or newline. *)
Lemma chomp_buffer l :
  strdup (<[strcspn (l ++ [NUL]) [LF] := NUL]> (l ++ [NUL]))
  = take_while text_byte l.
Proof.
  rewrite strcspn_lf. unfold strdup, c_str.
  induction l as [|c l IH]; simpl; [done|].
  destruct (text_byte c) eqn:Hc; simpl; [|done].
  apply andb_prop in Hc as [-> _]. f_equal. exact IH.
Qed.

Lemma text_of_terminated_line l :
  no_newline l → take_while text_byte (l ++ [LF]) = c_str l.
Proof.
  unfold c_str. induction l as [|c l IH]; simpl; [done|].
  intros [Hc Hl]%andb_prop.
  replace (text_byte c) with (not_nul c)
    by (unfold text_byte; rewrite Hc; by destruct (not_nul c)).
  destruct (not_nul c); [|done]. by rewrite IH.
Qed.

Lemma c_str_prefix l : c_str l `prefix_of` l.
Proof. apply take_while_prefix. Qed.

Lemma c_str_idem l : c_str (c_str l) = c_str l.
Proof. apply take_while_all, take_while_forallb. Qed.

(** ** What [fscanf] can change *)

Lemma fscanf_u_u_frame f s :
  name (fscanf_u_u f s).2 = name s
  ∧ version (fscanf_u_u f s).2 = version s
  ∧ same_unpersisted (fscanf_u_u f s).2 s.
Proof.
  unfold fscanf_u_u, same_unpersisted.
  destruct (scan_u f) as [| |v1 f1]; simpl; [done|done|].
  destruct (scan_u (drop_while isspace f1)); done.
Qed.

Lemma fscanf_u_u_counter f s :
  (fscanf_u_u f s).1 ≠ 2%Z → event_counter (fscanf_u_u f s).2 = event_counter s.
Proof.
  unfold fscanf_u_u.
  destruct (scan_u f) as [| |v1 f1]; simpl; [done|done|].
  destruct (scan_u (drop_while isspace f1)); done.
Qed.

(** ** The shape of a run of [load_state] *)

Lemma fgets_read f b rest :
  f ≠ [] → read_line 255 f = (b, rest) → fgets 256 f = Some (b ++ [NUL], rest).
Proof.
  intros Hf Hread. unfold fgets. destruct f as [|c f]; [done|].
  change (256 - 1) with 255. by rewrite Hread.
Qed.

Lemma load_state_at_read s path fs f b1 f1 b2 f2 :
  fopen_r path fs = Some f →
  f ≠ [] → read_line 255 f = (b1, f1) →
  f1 ≠ [] → read_line 255 f1 = (b2, f2) →
  load_state_at s path fs
  = scanned f2 (set_version (take_while text_byte b2)
                  (set_name (take_while text_byte b1) s)).
Proof.
  intros Hopen Hf Hb1 Hf1 Hb2. unfold load_state_at.
  rewrite Hopen, (fgets_read _ _ _ Hf Hb1), (fgets_read _ _ _ Hf1 Hb2).
  by rewrite !chomp_buffer.
Qed.

Lemma load_state_at_no_second_line s path fs f b1 :
  fopen_r path fs = Some f → read_line 255 f = (b1, []) →
  load_state_at s path fs = (ExitLines, s).
Proof.
  intros Hopen Hb1. unfold load_state_at. rewrite Hopen.
  destruct f as [|c f]; [done|].
  by rewrite (fgets_read (c :: f) b1 []).
Qed.

Lemma scanned_exit f s :
  (scanned f s).1 = ExitOk ∨ (scanned f s).1 = ExitNumeric.
Proof.
  unfold scanned. destruct (fscanf_u_u f s) as [n s'].
  destruct (n =? 2)%Z; auto.
Qed.

Lemma scanned_frame f s :
  name (scanned f s).2 = name s ∧ version (scanned f s).2 = version s
  ∧ same_unpersisted (scanned f s).2 s.
Proof.
  pose proof (fscanf_u_u_frame f s) as H. unfold scanned.
  destruct (fscanf_u_u f s) as [n s']. by destruct (n =? 2)%Z.
Qed.

(** Two lines that fit the buffers are read whole; the numeric stage starts
    right after the second newline. *)
Lemma load_state_at_two_lines s path fs l1 l2 rest :
  fopen_r path fs = Some (l1 ++ LF :: l2 ++ LF :: rest) →
  no_newline l1 → fits_buffer l1 → no_newline l2 → fits_buffer l2 →
  load_state_at s path fs
  = scanned rest (set_version (c_str l2) (set_name (c_str l1) s)).
Proof.
  unfold fits_buffer. intros Hopen Hn1 Hf1 Hn2 Hf2.
  rewrite (load_state_at_read s path fs _ (l1 ++ [LF]) (l2 ++ LF :: rest)
             (l2 ++ [LF]) rest Hopen).
  - by rewrite !text_of_terminated_line.
  - by destruct l1.
  - apply read_line_newline; [done|lia].
  - by destruct l2.
  - apply read_line_newline; [done|lia].
Qed.

(** ** Writing and reading back through the file system *)

Lemma save_state_written state path fs :
  fs_writable fs path = true →
  save_state state path fs
  = (0%Z, {| fs_files := <[path := format_state state]> (fs_files fs);
             fs_readable := fs_readable fs;
             fs_writable := fs_writable fs |}).
Proof.
  intros Hw. unfold save_state, fopen_w, fputs. rewrite Hw. simpl.
  do 2 f_equal. apply map_eq. intros k.
  destruct (decide (path = k)) as [->|Hne].
  - by rewrite lookup_alter_eq, !lookup_insert_eq.
  - by rewrite lookup_alter_ne, !lookup_insert_ne.
Qed.

Lemma save_state_unwritable state path fs :
  fs_writable fs path = false → save_state state path fs = ((-1)%Z, fs).
Proof. intros Hw. unfold save_state, fopen_w. by rewrite Hw. Qed.

Lemma fopen_r_saved state path fs :
  fs_writable fs path = true → fs_readable fs path = true →
  fopen_r path (save_state state path fs).2 = Some (format_state state).
Proof.
  intros Hw Hr. rewrite save_state_written by done.
  unfold fopen_r. simpl. by rewrite Hr, lookup_insert_eq.
Qed.

(** ** The numeric stage on what [save_state] wrote *)

Lemma scan_u_skip ws f :
  forallb isspace ws = true → scan_u (ws ++ f) = scan_u f.
Proof. intros H. unfold scan_u. by rewrite drop_while_app. Qed.

Lemma scan_u_drop_space f : scan_u (drop_while isspace f) = scan_u f.
Proof. unfold scan_u. by rewrite drop_while_idem. Qed.

Lemma fscanf_u_u_written p e s :
  (p < 2 ^ 32)%N → (e < 2 ^ 32)%N →
  fscanf_u_u (utoa p ++ [LF] ++ utoa e ++ [LF]) s
  = (2%Z, set_event_counter e (set_pid p s)).
Proof.
  intros Hp He. unfold fscanf_u_u.
  rewrite scan_u_utoa by done.
  rewrite scan_u_drop_space, (scan_u_skip [LF]) by done.
  by rewrite scan_u_utoa.
Qed.

(** ** Lines of a file *)

Lemma lines_cons_line l r : no_newline l → lines (l ++ LF :: r) = l :: lines r.
Proof.
  unfold no_newline. induction l as [|c l IH]; simpl; [done|].
  intros [Hc Hl]%andb_prop. unfold not_lf in Hc.
  apply negb_true_iff in Hc. by rewrite Hc, IH.
Qed.

Lemma lines_unlines ls : Forall no_newline ls → lines (unlines ls) = ls.
Proof.
  unfold unlines. induction 1 as [|l ls Hl _ IH]; simpl; [done|].
  rewrite <- app_assoc. cbn [app]. by rewrite lines_cons_line, IH.
Qed.

Lemma newline_count_app a b :
  newline_count (a ++ b) = newline_count a + newline_count b.
Proof. unfold newline_count. by rewrite filter_app, length_app. Qed.

Lemma newline_count_none l : no_newline l → newline_count l = 0.
Proof.
  unfold no_newline, newline_count. induction l as [|c l IH]; simpl; [done|].
  intros [Hc Hl]%andb_prop. apply not_lf_true in Hc.
  rewrite filter_cons_False by done. by apply IH.
Qed.

Lemma newline_count_elem l : LF ∈ l → 0 < newline_count l.
Proof.
  unfold newline_count. induction l as [|c l IH]; intros H.
  - by apply elem_of_nil in H.
  - rewrite filter_cons. destruct (decide (c = LF)); simpl; [lia|].
    apply elem_of_cons in H as [?|?]; [congruence|by apply IH].
Qed.

Lemma lines_length_terminated g :
  length (lines (g ++ [LF])) = S (newline_count g).
Proof.
  unfold newline_count. induction g as [|c g IH]; [done|].
  simpl lines. rewrite filter_cons.
  destruct (Ascii.eqb_spec c LF) as [->|Hc].
  - rewrite decide_True by done. simpl. by rewrite IH.
  - rewrite decide_False by done.
    destruct (lines (g ++ [LF])) as [|l ls]; [done|]. exact IH.
Qed.

Lemma format_state_unlines s :
  format_state s
  = unlines [name_str s; version_str s; utoa (pid s); utoa (event_counter s)].
Proof.
  unfold format_state, unlines, name_str, version_str. simpl.
  by rewrite <- !app_assoc.
Qed.

Lemma format_state_line_count s :
  length (lines (format_state s))
  = 4 + newline_count (name_str s) + newline_count (version_str s).
Proof.
  unfold format_state, name_str, version_str.
  rewrite !app_assoc, lines_length_terminated, <- !app_assoc.
  rewrite !newline_count_app.
  rewrite !(newline_count_none (utoa _)) by apply utoa_no_lf.
  change (newline_count [LF]) with 1. lia.
Qed.

(** * The claims *)

(** ** Round trip *)

(** C1, as amended: for every record whose name and version strings have no
    newline and at most 254 bytes each, and whose pid and event_counter are
    below 2^32, [save_state] followed by [load_state] on the same path (one
    that can be written and read) succeeds and yields a record with the same
    name, version, pid and event_counter. *)
Theorem save_load_roundtrip
  (s s0 : AppState) (path : string) (fs : filesystem) :
  no_newline (name_str s) → no_newline (version_str s) →
  fits_buffer (name_str s) → fits_buffer (version_str s) →
  (pid s < 2 ^ 32)%N → (event_counter s < 2 ^ 32)%N →
  fs_writable fs path = true → fs_readable fs path = true →
  ∃ s', load_state s0 path (save_state s path fs).2 = (0%Z, s')
        ∧ name_str s' = name_str s ∧ version_str s' = version_str s
        ∧ pid s' = pid s ∧ event_counter s' = event_counter s.
Proof.
  intros Hn Hv Hnlen Hvlen Hp He Hw Hr.
  pose proof (fopen_r_saved s path fs Hw Hr) as Hopen.
  unfold format_state in Hopen. cbn [app] in Hopen.
  unfold load_state.
  rewrite (load_state_at_two_lines _ _ _ _ _ _ Hopen) by done.
  unfold scanned.
  rewrite (fscanf_u_u_written (pid s) (event_counter s)) by done.
  simpl. eexists. split; [done|].
  unfold name_str, version_str. simpl. by rewrite !c_str_idem.
Qed.

Lemma save_load_roundtrip_witness :
  ∃ s', load_state blank_state "state.txt"
          (save_state agent_state "state.txt" (open_fs ∅)).2 = (0%Z, s')
        ∧ name_str s' = name_str agent_state
        ∧ version_str s' = version_str agent_state
        ∧ pid s' = pid agent_state
        ∧ event_counter s' = event_counter agent_state.
Proof.
  apply (save_load_roundtrip agent_state blank_state "state.txt" (open_fs ∅));
    try reflexivity; unfold fits_buffer; simpl; lia.
Defined.

(** C1, as stated, fails: a name of 255 bytes without newline is written
    whole, but [load_state] reads only its first 255 bytes into [name], takes
    the newline after them for the version line, and then finds the real
    version where the numbers should be. *)
Lemma roundtrip_fails_for_long_name :
  ¬ roundtrip_as_stated long_name_state blank_state "state.txt" (open_fs ∅).
Proof.
  intros H. destruct H as (s' & Hload & _); try reflexivity.
  vm_compute in Hload. discriminate Hload.
Qed.

(** ** The file that [save_state] writes *)

(** C3: [save_state] on the record with name "agent", version "1.0.0", pid
    4242 and event_counter 7 returns 0 and leaves exactly the bytes
    agent LF 1.0.0 LF 4242 LF 7 LF in the file; [load_state] on a file with
    that content returns 0 and stores exactly these four values. *)
Theorem agent_scenario
  (s0 : AppState) (path path' : string) (fs fs' : filesystem) :
  fs_writable fs path = true →
  fopen_r path' fs' = Some agent_file →
  (save_state agent_state path fs).1 = 0%Z
  ∧ fs_files (save_state agent_state path fs).2 !! path = Some agent_file
  ∧ load_state s0 path' fs'
    = (0%Z, set_event_counter 7 (set_pid 4242
              (set_version (bytes "1.0.0") (set_name (bytes "agent") s0)))).
Proof.
  intros Hw Hopen. rewrite save_state_written by done. simpl.
  split; [done|]. split; [by rewrite lookup_insert_eq|].
  unfold load_state.
  rewrite (load_state_at_two_lines s0 path' fs' (bytes "agent")
             (bytes "1.0.0") (bytes "4242" ++ [LF] ++ bytes "7" ++ [LF]));
    try done; unfold fits_buffer; simpl; lia.
Qed.

Lemma agent_scenario_witness :
  (save_state agent_state "state.txt" (open_fs ∅)).1 = 0%Z
  ∧ fs_files (save_state agent_state "state.txt" (open_fs ∅)).2 !! "state.txt"
    = Some agent_file
  ∧ load_state blank_state "state.txt" (one_file "state.txt" agent_file)
    = (0%Z, set_event_counter 7 (set_pid 4242
              (set_version (bytes "1.0.0") (set_name (bytes "agent") blank_state)))).
Proof.
  apply (agent_scenario blank_state "state.txt" "state.txt" (open_fs ∅)
           (one_file "state.txt" agent_file)); reflexivity.
Defined.

(** *** The numerals that [%u] writes *)


Lemma numeral_digit_bound c : (numeral_digit c < 10)%N.
Proof. by_cases_on_byte c. Qed.

Lemma numeral_digit_char c :
  isdigit c = true → c = digit_char (numeral_digit c).
Proof. by_cases_on_byte c. Qed.

Lemma numeral_digit_zero c :
  isdigit c = true → numeral_digit c = 0%N → c = "0"%char.
Proof. by_cases_on_byte c. Qed.






Lemma decimal_value_bound ds :
  (decimal_value ds < 10 ^ N.of_nat (length ds))%N.
Proof.
  induction ds as [|d ds IH]; [done|].
  cbn [length decimal_value]. rewrite Nat2N.inj_succ, N.pow_succ_r'.
  pose proof (numeral_digit_bound d). nia.
Qed.

Lemma decimal_value_lower d ds :
  isdigit d = true → d ≠ "0"%char →
  (10 ^ N.of_nat (length ds) ≤ decimal_value (d :: ds))%N.
Proof.
  intros Hd Hnz. cbn [decimal_value].
  assert (numeral_digit d ≠ 0%N) by (intros H; by apply numeral_digit_zero in H).
  nia.
Qed.

Lemma decimal_value_same_length a b :
  length a = length b →
  forallb isdigit a = true → forallb isdigit b = true →
  decimal_value a = decimal_value b → a = b.
Proof.
  revert b. induction a as [|x a IH]; intros [|y b] Hlen Ha Hb Hv;
    simpl in Hlen; try done.
  simpl in Ha, Hb. apply andb_prop in Ha as [Hx Ha].
  apply andb_prop in Hb as [Hy Hb]. injection Hlen as Hlen.
  cbn [decimal_value] in Hv. rewrite Hlen in Hv.
  pose proof (decimal_value_bound a) as Ba. rewrite Hlen in Ba.
  pose proof (decimal_value_bound b) as Bb.
  assert (numeral_digit x = numeral_digit y) as Hxy by nia.
  rewrite Hxy in Hv. f_equal.
  - by rewrite (numeral_digit_char x), (numeral_digit_char y), Hxy.
  - apply IH; [done|done|done|lia].
Qed.

Lemma decimal_numeral_length n d ds :
  isdigit d = true → d ≠ "0"%char → forallb isdigit ds = true →
  decimal_value (d :: ds) = n →
  (10 ^ N.of_nat (length ds) ≤ n < 10 ^ N.of_nat (S (length ds)))%N.
Proof.
  intros Hd Hnz Hds <-. split; [by apply decimal_value_lower|].
  apply (decimal_value_bound (d :: ds)).
Qed.

(** A number has one decimal numeral only: the predicate fixes the bytes. *)
Lemma decimal_numeral_unique n a b :
  decimal_numeral n a → decimal_numeral n b → a = b.
Proof.
  assert (∀ m x, decimal_numeral m x → x = ["0"%char] → m = 0%N) as Hzero.
  { intros m x (_ & _ & _ & <-) ->. done. }
  assert (∀ m x, decimal_numeral m x → head x ≠ Some "0"%char →
          ∃ d ds, x = d :: ds ∧ isdigit d = true ∧ d ≠ "0"%char
                  ∧ forallb isdigit ds = true
                  ∧ (10 ^ N.of_nat (length ds) ≤ m
                     < 10 ^ N.of_nat (S (length ds)))%N) as Hpos.
  { intros m [|d ds] (Hne & Hdig & _ & Hv) Hhead; [done|].
    simpl in Hdig. apply andb_prop in Hdig as [Hd Hds].
    assert (d ≠ "0"%char) by (intros ->; by apply Hhead).
    exists d, ds. eauto 6 using decimal_numeral_length. }
  intros Ha Hb.
  destruct (proj1 (proj2 (proj2 Ha))) as [Ea|Na],
           (proj1 (proj2 (proj2 Hb))) as [Eb|Nb].
  - by rewrite Ea, Eb.
  - pose proof (Hzero _ _ Ha Ea) as ->.
    destruct (Hpos _ _ Hb Nb) as (d & ds & _ & _ & _ & _ & Hlow & _).
    pose proof (N.pow_nonzero 10 (N.of_nat (length ds))). lia.
  - pose proof (Hzero _ _ Hb Eb) as ->.
    destruct (Hpos _ _ Ha Na) as (d & ds & _ & _ & _ & _ & Hlow & _).
    pose proof (N.pow_nonzero 10 (N.of_nat (length ds))). lia.
  - destruct (Hpos _ _ Ha Na) as (d1 & a' & -> & _ & _ & _ & La & Ua).
    destruct (Hpos _ _ Hb Nb) as (d2 & b' & -> & _ & _ & _ & Lb & Ub).
    destruct Ha as (_ & Hda & _ & Hva), Hb as (_ & Hdb & _ & Hvb).
    apply decimal_value_same_length; [|done|done|congruence].
    simpl. f_equal.
    destruct (Nat.lt_trichotomy (length a') (length b')) as [Hlt|[Heq|Hgt]];
      [|done|].
    + assert (10 ^ N.of_nat (S (length a')) ≤ 10 ^ N.of_nat (length b'))%N
        by (apply N.pow_le_mono_r; lia). lia.
    + assert (10 ^ N.of_nat (S (length b')) ≤ 10 ^ N.of_nat (length a'))%N
        by (apply N.pow_le_mono_r; lia). lia.
Qed.



(** C10: [save_state] does not look at the strings it writes.  For every
    record whose name or version string holds a newline, it returns 0
    whenever the file can be opened for writing (and -1 only when it cannot),
    and the file it then writes has more than four lines. *)
Theorem save_state_no_validation
  (s : AppState) (path : string) (fs : filesystem) :
  LF ∈ name_str s ∨ LF ∈ version_str s →
  (save_state s path fs).1 = (if fs_writable fs path then 0 else -1)%Z
  ∧ (fs_writable fs path = true →
     ∃ content, fs_files (save_state s path fs).2 !! path = Some content
                ∧ 4 < length (lines content)).
Proof.
  intros Hlf. split.
  - destruct (fs_writable fs path) eqn:Hw.
    + by rewrite save_state_written.
    + by rewrite save_state_unwritable.
  - intros Hw. rewrite save_state_written by done. simpl.
    exists (format_state s). split; [by rewrite lookup_insert_eq|].
    rewrite format_state_line_count.
    destruct Hlf as [H|H]; apply newline_count_elem in H; lia.
Qed.

Lemma save_state_no_validation_witness :
  (save_state two_line_name_state "state.txt" (open_fs ∅)).1 = 0%Z
  ∧ ∃ content,
      fs_files (save_state two_line_name_state "state.txt" (open_fs ∅)).2
        !! "state.txt" = Some content
      ∧ 4 < length (lines content).
Proof.
  assert (LF ∈ name_str two_line_name_state
          ∨ LF ∈ version_str two_line_name_state) as Hlf.
  { left. vm_compute. do 3 apply list_elem_of_further. apply list_elem_of_here. }
  destruct (save_state_no_validation two_line_name_state "state.txt"
              (open_fs ∅) Hlf) as [Hret Hfile].
  split; [exact Hret|]. apply Hfile. reflexivity.
Defined.

(** ** Failures of [load_state] *)

Lemma fopen_r_None path fs :
  fopen_r path fs = None
  ↔ fs_files fs !! path = None ∨ fs_readable fs path = false.
Proof.
  unfold fopen_r. destruct (fs_readable fs path); split; auto.
  intros [?|?]; done.
Qed.

(** C5: for every path at which there is no file, or none that can be read,
    [load_state] returns -1 from its first [return] and the caller's record
    is the one passed in: no field has been written. *)
Theorem load_state_missing_file (s : AppState) (path : string) (fs : filesystem) :
  fs_files fs !! path = None ∨ fs_readable fs path = false →
  load_state_at s path fs = (ExitOpen, s)
  ∧ load_state s path fs = ((-1)%Z, s).
Proof.
  intros H%fopen_r_None. unfold load_state, load_state_at. by rewrite H.
Qed.

Lemma load_state_missing_file_witness :
  load_state_at agent_state "absent.txt" (one_file "state.txt" agent_file)
  = (ExitOpen, agent_state)
  ∧ load_state agent_state "absent.txt" (one_file "state.txt" agent_file)
    = ((-1)%Z, agent_state).
Proof.
  apply (load_state_missing_file agent_state "absent.txt"
           (one_file "state.txt" agent_file)).
  left. reflexivity.
Defined.

(** Every run of [load_state] is of one of three kinds. *)
Lemma load_state_at_cases s path fs :
  (fopen_r path fs = None ∧ load_state_at s path fs = (ExitOpen, s))
  ∨ (∃ f, fopen_r path fs = Some f
          ∧ (f = [] ∨ after_name f = [])
          ∧ load_state_at s path fs = (ExitLines, s))
  ∨ (∃ f, fopen_r path fs = Some f
          ∧ f ≠ [] ∧ after_name f ≠ []
          ∧ load_state_at s path fs = scanned (numbers f) (with_strings f s)).
Proof.
  destruct (fopen_r path fs) as [f|] eqn:Hopen.
  2:{ left. unfold load_state_at. by rewrite Hopen. }
  right. destruct f as [|c f].
  { left. exists []. unfold load_state_at. rewrite Hopen. auto. }
  destruct (read_line 255 (c :: f)) as [b1 f1] eqn:Hb1.
  destruct f1 as [|c1 f1].
  - left. exists (c :: f). unfold after_name. rewrite Hb1.
    split; [done|]. split; [by right|].
    by apply (load_state_at_no_second_line s path fs (c :: f) b1).
  - right. exists (c :: f).
    destruct (read_line 255 (c1 :: f1)) as [b2 f2] eqn:Hb2.
    unfold numbers, with_strings, version_chunk, name_chunk, after_name.
    rewrite Hb1. cbn [fst snd]. rewrite Hb2. cbn [fst snd].
    split; [done|]. split; [done|]. split; [done|].
    by apply (load_state_at_read s path fs (c :: f) b1 (c1 :: f1) b2 f2).
Qed.

Lemma same_unpersisted_refl s : same_unpersisted s s.
Proof. by unfold same_unpersisted. Qed.

Lemma with_strings_frame f s : same_unpersisted (with_strings f s) s.
Proof. by unfold same_unpersisted. Qed.

Lemma same_unpersisted_trans a b c :
  same_unpersisted a b → same_unpersisted b c → same_unpersisted a c.
Proof. unfold same_unpersisted. intros H1 H2. intuition congruence. Qed.

Lemma load_state_at_frame s path fs :
  same_unpersisted (load_state_at s path fs).2 s.
Proof.
  destruct (load_state_at_cases s path fs)
    as [[_ ->]|[(f & _ & _ & ->)|(f & _ & _ & _ & ->)]];
    try apply same_unpersisted_refl.
  eapply same_unpersisted_trans; [apply scanned_frame|apply with_strings_frame].
Qed.

Lemma load_state_fst s path fs :
  (load_state s path fs).1 = exit_status (load_state_at s path fs).1.
Proof. unfold load_state. by destruct (load_state_at s path fs). Qed.

Lemma load_state_snd s path fs :
  (load_state s path fs).2 = (load_state_at s path fs).2.
Proof. unfold load_state. by destruct (load_state_at s path fs). Qed.

(** C9: for every call of [load_state] that returns 0, the fields data,
    status, last_updated, stared_at, error_log, error_log_len, config,
    system_application, stdout_entries, stdout_len, stderr_entries and
    stderr_len of the caller's record hold the same values after the call
    as before it. *)
Theorem load_state_frame (s : AppState) (path : string) (fs : filesystem) :
  (load_state s path fs).1 = 0%Z →
  same_unpersisted (load_state s path fs).2 s.
Proof. intros _. rewrite load_state_snd. apply load_state_at_frame. Qed.

Lemma load_state_frame_witness :
  same_unpersisted
    (load_state host_state "state.txt" (one_file "state.txt" agent_file)).2
    host_state.
Proof.
  apply (load_state_frame host_state "state.txt"
           (one_file "state.txt" agent_file)).
  reflexivity.
Defined.

Lemma scanned_failure f s :
  (scanned f s).1 = ExitNumeric →
  event_counter (scanned f s).2 = event_counter s.
Proof.
  pose proof (fscanf_u_u_counter f s) as H. unfold scanned in *.
  destruct (fscanf_u_u f s) as [n s']. simpl in *.
  destruct (Z.eqb_spec n 2); [done|]. intros _. by apply H.
Qed.

(** C2, as amended: when [load_state] returns -1 from the open stage or
    from the line-reading stage, every field of the caller's record is as
    before.  When it returns -1 from the numeric stage, name and version
    have been replaced by the texts of the two chunks read, while
    event_counter and all the fields outside the four persisted ones are as
    before. *)
Theorem load_state_failure (s : AppState) (path : string) (fs : filesystem) :
  (load_state s path fs).1 = (-1)%Z →
  ((load_state_at s path fs).1 = ExitOpen
   ∧ (load_state s path fs).2 = s)
  ∨ ((load_state_at s path fs).1 = ExitLines
     ∧ (load_state s path fs).2 = s)
  ∨ ((load_state_at s path fs).1 = ExitNumeric
     ∧ ∃ f, fopen_r path fs = Some f
            ∧ name (load_state s path fs).2 = name (with_strings f s)
            ∧ version (load_state s path fs).2 = version (with_strings f s)
            ∧ event_counter (load_state s path fs).2 = event_counter s
            ∧ same_unpersisted (load_state s path fs).2 s).
Proof.
  rewrite load_state_fst, !load_state_snd. intros Hfail.
  pose proof (load_state_at_frame s path fs) as Hframe.
  destruct (load_state_at_cases s path fs)
    as [[_ Heq]|[(f & _ & _ & Heq)|(f & Hopen & _ & _ & Heq)]];
    rewrite Heq in *; simpl; auto.
  right; right.
  destruct (scanned_exit (numbers f) (with_strings f s)) as [Hok|Hnum].
  { rewrite Hok in Hfail. done. }
  split; [done|]. exists f. split; [done|].
  destruct (scanned_frame (numbers f) (with_strings f s)) as (Hn & Hv & _).
  split; [done|]. split; [done|]. split; [by rewrite scanned_failure|done].
Qed.

Lemma load_state_failure_witness :
  ((load_state_at agent_state "state.txt"
      (one_file "state.txt" malformed_file)).1 = ExitOpen
   ∧ (load_state agent_state "state.txt"
        (one_file "state.txt" malformed_file)).2 = agent_state)
  ∨ ((load_state_at agent_state "state.txt"
        (one_file "state.txt" malformed_file)).1 = ExitLines
     ∧ (load_state agent_state "state.txt"
          (one_file "state.txt" malformed_file)).2 = agent_state)
  ∨ ((load_state_at agent_state "state.txt"
        (one_file "state.txt" malformed_file)).1 = ExitNumeric
     ∧ ∃ f, fopen_r "state.txt" (one_file "state.txt" malformed_file) = Some f
            ∧ name (load_state agent_state "state.txt"
                      (one_file "state.txt" malformed_file)).2
              = name (with_strings f agent_state)
            ∧ version (load_state agent_state "state.txt"
                         (one_file "state.txt" malformed_file)).2
              = version (with_strings f agent_state)
            ∧ event_counter (load_state agent_state "state.txt"
                               (one_file "state.txt" malformed_file)).2
              = event_counter agent_state
            ∧ same_unpersisted
                (load_state agent_state "state.txt"
                   (one_file "state.txt" malformed_file)).2 agent_state).
Proof.
  apply (load_state_failure agent_state "state.txt"
           (one_file "state.txt" malformed_file)).
  reflexivity.
Defined.

(** C2, as stated, fails: on a file whose third line is not numeric the call
    returns -1 after name and version have been assigned. *)
Lemma failed_load_changes_name :
  ¬ failure_atomic_as_stated agent_state "state.txt"
      (one_file "state.txt" malformed_file).
Proof.
  intros H. specialize (H eq_refl). vm_compute in H. discriminate H.
Qed.

(** ** One-line files *)

Lemma forallb_drop {A} (p : A → bool) n l :
  forallb p l = true → forallb p (drop n l) = true.
Proof.
  revert n. induction l as [|x l IH]; intros [|n]; simpl; try done.
  intros [_ Hl]%andb_prop. by apply IH.
Qed.

Lemma single_line_take k f :
  single_line f → k < length f → no_newline (take k f).
Proof.
  intros (l & Hl & [->| ->]) Hk; [by apply forallb_take|].
  rewrite length_app in Hk. simpl in Hk.
  rewrite take_app_le by lia. by apply forallb_take.
Qed.

Lemma single_line_drop k f : single_line f → single_line (drop k f).
Proof.
  intros (l & Hl & [->| ->]).
  - exists (drop k l). split; [by apply forallb_drop|by left].
  - destruct (decide (k ≤ length l)).
    + exists (drop k l). split; [by apply forallb_drop|].
      right. by apply drop_app_le.
    + exists []. split; [done|]. left.
      apply drop_ge. rewrite length_app. simpl. lia.
Qed.

Lemma scanned_at_eof s : scanned [] s = (ExitNumeric, s).
Proof. done. Qed.

(** C6, as amended: for every file that is a single line of at most 510
    bytes, [load_state] returns -1; when the line has at most 255 bytes,
    newline included, it does so from the line-reading stage, because the
    end of the file is met before a second line can be read, and the record
    is as before. *)
Theorem load_state_single_line
  (s : AppState) (path : string) (fs : filesystem) (f : list ascii) :
  fopen_r path fs = Some f → single_line f → length f ≤ 510 →
  (load_state s path fs).1 = (-1)%Z
  ∧ (length f ≤ 255 → load_state_at s path fs = (ExitLines, s)).
Proof.
  intros Hopen Hone Hlen.
  destruct (decide (length f ≤ 255)) as [Hshort|Hlong].
  - assert (load_state_at s path fs = (ExitLines, s)) as Heq.
    { apply (load_state_at_no_second_line s path fs f f); [done|].
      by apply read_line_single. }
    split; [|done]. by rewrite load_state_fst, Heq.
  - split; [|lia]. rewrite load_state_fst.
    rewrite (load_state_at_read s path fs f (take 255 f) (drop 255 f)
               (drop 255 f) [] Hopen).
    + by rewrite scanned_at_eof.
    + destruct f; [simpl in *; lia|done].
    + apply read_line_full; [apply single_line_take; [done|lia]|lia].
    + intros Hnil. apply (f_equal length) in Hnil.
      rewrite length_drop in Hnil. simpl in Hnil. lia.
    + apply read_line_single; [by apply single_line_drop|].
      rewrite length_drop. lia.
Qed.

Lemma load_state_single_line_witness :
  (load_state agent_state "state.txt"
     (one_file "state.txt" (bytes "agent" ++ [LF]))).1 = (-1)%Z
  ∧ load_state_at agent_state "state.txt"
      (one_file "state.txt" (bytes "agent" ++ [LF]))
    = (ExitLines, agent_state).
Proof.
  assert (single_line (bytes "agent" ++ [LF])) as Hone.
  { exists (bytes "agent"). split; [reflexivity|right; reflexivity]. }
  assert (length (bytes "agent" ++ [LF]) ≤ 510) as Hlen by (simpl; lia).
  destruct (load_state_single_line agent_state "state.txt"
              (one_file "state.txt" (bytes "agent" ++ [LF]))
              (bytes "agent" ++ [LF]) eq_refl Hone Hlen) as [Hret Hexit].
  split; [exact Hret|]. apply Hexit. simpl. lia.
Defined.

(** C6, as stated, fails: a single line of 513 bytes fills both line
    buffers with 255 bytes each, and the "1 2" left over is what [fscanf]
    needs, so that [load_state] returns 0. *)
Lemma long_single_line_loads :
  ¬ single_line_fails_as_stated agent_state "state.txt"
      (one_file "state.txt" long_single_line) long_single_line.
Proof.
  intros H. unfold single_line_fails_as_stated in H.
  assert (single_line long_single_line) as Hone.
  { exists long_single_line. split; [reflexivity|by left]. }
  specialize (H eq_refl Hone). vm_compute in H. discriminate H.
Qed.

(** ** The numeric stage and the syntax of two integers *)

Lemma take_while_drop_while {A} (p : A → bool) l :
  take_while p (drop_while p l) = [].
Proof.
  destruct (drop_while p l) as [|x r] eqn:E; [done|].
  simpl. by rewrite (drop_while_head _ _ _ _ E).
Qed.

Lemma drop_while_none {A} (p : A → bool) l :
  take_while p l = [] → drop_while p l = l.
Proof. intros H. pose proof (take_drop_while p l) as E. by rewrite H in E. Qed.

Lemma is_sign_cases c : is_sign c = true → c = "+"%char ∨ c = "-"%char.
Proof.
  unfold is_sign. intros [H|H]%orb_prop; apply Ascii.eqb_eq in H; auto.
Qed.

Lemma scan_u_signed c ds r :
  is_sign c = true → ds ≠ [] → forallb isdigit ds = true →
  take_while isdigit r = [] →
  scan_u (c :: ds ++ r)
  = Converted
      (to_uint32 (strtoul_value (Ascii.eqb c "-"%char) (digits_value 0 ds))) r.
Proof.
  intros Hc Hne Hds Hr. unfold scan_u. simpl.
  rewrite (is_sign_not_space _ Hc), Hc.
  rewrite take_while_app, Hr, app_nil_r by done.
  rewrite drop_while_app, drop_while_none by done.
  by destruct ds.
Qed.

Lemma scan_u_sound f v r : scan_u f = Converted v r → parses_uint f r.
Proof.
  unfold scan_u. pose proof (take_drop_while isspace f) as Hf.
  pose proof (take_while_forallb isspace f) as Hws.
  destruct (drop_while isspace f) as [|c f']; [done|].
  destruct (is_sign c) eqn:Hs.
  - pose proof (take_drop_while isdigit f') as Hf'.
    pose proof (take_while_forallb isdigit f') as Hds.
    destruct (take_while isdigit f') as [|d ds]; [done|].
    intros [= _ <-]. exists (take_while isspace f), [c], (d :: ds).
    split; [by rewrite Hf'|]. split; [done|].
    split; [destruct (is_sign_cases _ Hs) as [->| ->]; auto|].
    split; [done|]. split; [done|]. apply take_while_drop_while.
  - pose proof (take_drop_while isdigit (c :: f')) as Hf'.
    pose proof (take_while_forallb isdigit (c :: f')) as Hds.
    destruct (take_while isdigit (c :: f')) as [|d ds]; [done|].
    intros [= _ <-]. exists (take_while isspace f), [], (d :: ds).
    split; [rewrite <- Hf' in Hf; symmetry; exact Hf|]. split; [done|].
    split; [auto|]. split; [done|]. split; [done|].
    apply (take_while_drop_while isdigit (c :: f')).
Qed.

Lemma scan_u_complete f r : parses_uint f r → ∃ v, scan_u f = Converted v r.
Proof.
  intros (ws & sg & ds & -> & Hws & Hsg & Hne & Hds & Hr).
  rewrite scan_u_skip by done.
  destruct Hsg as [->|[->| ->]]; cbn [app].
  - rewrite scan_u_digits by done. eauto.
  - rewrite scan_u_signed by done. eauto.
  - rewrite scan_u_signed by done. eauto.
Qed.

(** [fscanf] reports two conversions exactly on the inputs that start with
    two integers. *)
Lemma fscanf_u_u_two f s : (fscanf_u_u f s).1 = 2%Z ↔ two_uints f.
Proof.
  unfold fscanf_u_u. split.
  - destruct (scan_u f) as [| |v1 f1] eqn:H1; [done|done|].
    destruct (scan_u (drop_while isspace f1)) as [| |v2 f2] eqn:H2;
      [done|done|]. intros _. rewrite scan_u_drop_space in H2.
    exists f1, f2. eauto using scan_u_sound.
  - intros (r1 & r2 & [v1 H1]%scan_u_complete & [v2 H2]%scan_u_complete).
    by rewrite H1, scan_u_drop_space, H2.
Qed.

(** C7, as amended: for every file whose first two lines have at most 254
    bytes each, and whose content after the second newline does not start
    with two integers in the syntax of [%u] (white space, newlines included,
    an optional sign, digits; twice), [load_state] returns -1 from the
    numeric stage.  The two integers need not be on one line. *)
Theorem load_state_malformed_numbers
  (s : AppState) (path : string) (fs : filesystem) (l1 l2 rest : list ascii) :
  fopen_r path fs = Some (l1 ++ LF :: l2 ++ LF :: rest) →
  no_newline l1 → fits_buffer l1 → no_newline l2 → fits_buffer l2 →
  ¬ two_uints rest →
  (load_state_at s path fs).1 = ExitNumeric
  ∧ (load_state s path fs).1 = (-1)%Z.
Proof.
  intros Hopen Hn1 Hf1 Hn2 Hf2 Hbad.
  rewrite load_state_fst.
  rewrite (load_state_at_two_lines s path fs l1 l2 rest) by done.
  unfold scanned.
  pose proof (fscanf_u_u_two rest
                (set_version (c_str l2) (set_name (c_str l1) s))) as Htwo.
  destruct (fscanf_u_u rest _) as [n s']. simpl in Htwo.
  destruct (Z.eqb_spec n 2) as [Hn|Hn]; [|done].
  by apply Htwo in Hn.
Qed.

Lemma load_state_malformed_numbers_witness :
  (load_state_at agent_state "state.txt"
     (one_file "state.txt" malformed_file)).1 = ExitNumeric
  ∧ (load_state agent_state "state.txt"
       (one_file "state.txt" malformed_file)).1 = (-1)%Z.
Proof.
  apply (load_state_malformed_numbers agent_state "state.txt"
           (one_file "state.txt" malformed_file)
           (bytes "new") (bytes "v") (bytes "abc def" ++ [LF]));
    try reflexivity; try (unfold fits_buffer; simpl; lia).
  intros H. apply (fscanf_u_u_two _ blank_state) in H.
  vm_compute in H. discriminate H.
Defined.

(** C7, as stated, fails: in the file that [save_state] writes for the
    record of C3 the third line is "4242", which holds one integer and not
    two, and [load_state] returns 0 because the second integer is on the
    fourth line. *)
Lemma one_integer_per_line_loads :
  ¬ third_line_fails_as_stated agent_state "state.txt"
      (one_file "state.txt" agent_file)
      (bytes "agent") (bytes "1.0.0") (bytes "4242") (bytes "7" ++ [LF]).
Proof.
  intros H. unfold third_line_fails_as_stated in H.
  assert (¬ two_uints (bytes "4242")) as Hone.
  { intros Htwo. apply (fscanf_u_u_two _ blank_state) in Htwo.
    vm_compute in Htwo. discriminate Htwo. }
  assert (fits_buffer (bytes "agent") ∧ fits_buffer (bytes "1.0.0"))
    as [Hf1 Hf2] by (unfold fits_buffer; simpl; lia).
  specialize (H eq_refl eq_refl Hf1 eq_refl Hf2 eq_refl Hone).
  vm_compute in H. discriminate H.
Qed.

(** ** Lines longer than the buffers *)

Lemma scanned_ok_iff f s : (scanned f s).1 = ExitOk ↔ two_uints f.
Proof.
  pose proof (fscanf_u_u_two f s) as Htwo. unfold scanned.
  destruct (fscanf_u_u f s) as [n s']. simpl in Htwo. rewrite <- Htwo.
  destruct (Z.eqb_spec n 2); simpl; split; done.
Qed.

Lemma exit_status_ok e : exit_status e = 0%Z ↔ e = ExitOk.
Proof. destruct e; simpl; split; done. Qed.

Lemma not_lf_false c : not_lf c = false → c = LF.
Proof. unfold not_lf. intros H%negb_false_iff. by apply Ascii.eqb_eq. Qed.

(** Whatever [fgets] stores, the text kept from it is the string in the
    first 255 bytes of the current line. *)
Lemma read_line_text room g :
  take_while text_byte (read_line room g).1 = c_str (take room (first_line g)).
Proof.
  unfold c_str, first_line. revert g.
  induction room as [|room IH]; intros [|c g]; simpl; try done.
  unfold not_lf at 1. destruct (Ascii.eqb_spec c LF) as [->|Hc]; simpl; [done|].
  specialize (IH g). destruct (read_line room g) as [l rest]. simpl in *.
  replace (text_byte c) with (not_nul c).
  - destruct (not_nul c); [|done]. by rewrite IH.
  - unfold text_byte. apply not_lf_true in Hc. rewrite Hc.
    by destruct (not_nul c).
Qed.

Lemma file_split f : first_line f ++ drop_while not_lf f = f.
Proof. apply take_drop_while. Qed.

Lemma first_line_no_newline f : no_newline (first_line f).
Proof. apply take_while_forallb. Qed.

Lemma read_line_overlong f :
  255 ≤ length (first_line f) →
  read_line 255 f = (take 255 f, drop 255 f).
Proof.
  intros Hlen. pose proof (file_split f) as Hf.
  apply read_line_full.
  - rewrite <- Hf, take_app_le by done.
    apply forallb_take, first_line_no_newline.
  - rewrite <- Hf, length_app. lia.
Qed.

Lemma first_line_drop k f :
  k ≤ length (first_line f) → first_line (drop k f) = drop k (first_line f).
Proof.
  intros Hk. pose proof (file_split f) as Hf.
  rewrite <- Hf at 1. rewrite drop_app_le by done.
  unfold first_line at 1. rewrite take_while_app.
  - by rewrite take_while_drop_while, app_nil_r.
  - apply forallb_drop, first_line_no_newline.
Qed.

Lemma second_line_split f :
  second_line f ≠ [] → f = first_line f ++ LF :: after_first_line f.
Proof.
  intros Hne. pose proof (file_split f) as Hf.
  unfold second_line, after_first_line in *.
  destruct (drop_while not_lf f) as [|c g] eqn:Hdw; [done|].
  apply drop_while_head, not_lf_false in Hdw as ->. done.
Qed.

Lemma proper_prefix_c_str_take l :
  255 < length l → proper_prefix (c_str (take 255 l)) l.
Proof.
  intros Hlen. split.
  - etrans; [apply c_str_prefix|apply prefix_take].
  - pose proof (prefix_length _ _ (c_str_prefix (take 255 l))) as H.
    rewrite length_take in H. lia.
Qed.

Lemma drop_first_line k f :
  k ≤ length (first_line f) →
  drop k f = drop k (first_line f) ++ drop_while not_lf f.
Proof.
  intros Hk. pose proof (file_split f) as Hf.
  rewrite <- Hf at 1. by apply drop_app_le.
Qed.

(** After a first [fgets] that stopped inside the name line, the second one
    leaves the stream at [after_long_name]. *)
Lemma read_second_chunk f :
  255 ≤ length (first_line f) →
  (read_line 255 (drop 255 f)).2 = after_long_name f.
Proof.
  intros Hlen. unfold after_long_name.
  destruct (Nat.ltb_spec (length (first_line f)) 510) as [Hlt|Hge].
  - rewrite drop_first_line by done. unfold after_first_line.
    assert (no_newline (drop 255 (first_line f))) as Hnl
      by apply forallb_drop, first_line_no_newline.
    assert (length (drop 255 (first_line f)) < 255) as Hshort
      by (rewrite length_drop; lia).
    destruct (drop_while not_lf f) as [|c g] eqn:Hdw.
    + rewrite app_nil_r, read_line_eof; [done|done|lia].
    + apply drop_while_head, not_lf_false in Hdw as ->.
      by rewrite read_line_newline.
  - rewrite read_line_overlong.
    + cbn [snd]. by rewrite drop_drop.
    + rewrite first_line_drop, length_drop by done. lia.
Qed.

(** C8, as amended: for every file whose first line is longer than 256
    bytes, [load_state] does not return from the line stage; it stores in
    name the string in the first 255 bytes of that line, a proper prefix of
    the line, and continues in the same line, so that version receives the
    string in the next 255 bytes of the name line.  The numeric stage then
    scans what the second [fgets] left: the bytes behind the newline of the
    name line (the version line and what follows it) when the name line has
    fewer than 510 bytes, and the file from byte 510 on when it has 510
    bytes or more.
    For every file whose first line has at most 254 bytes and whose second
    line is longer than 256 bytes, [load_state] does not return from the
    line stage, stores the first line in name and in version the string in
    the first 255 bytes of the second line, a proper prefix of it, and the
    numeric stage scans the second line from its byte 255 on and what
    follows it.  In each case the call returns 0 exactly when the scanned
    bytes start with two integers in the syntax of [%u]. *)
Theorem load_state_truncates
  (s : AppState) (path : string) (fs : filesystem) (f : list ascii) :
  fopen_r path fs = Some f →
  (256 < length (first_line f) →
   load_state_at s path fs
   = scanned (after_long_name f)
       (set_version (c_str (take 255 (drop 255 (first_line f))))
          (set_name (c_str (take 255 (first_line f))) s))
   ∧ ((load_state_at s path fs).1 = ExitOk
      ∨ (load_state_at s path fs).1 = ExitNumeric)
   ∧ name (load_state_at s path fs).2 = c_str (take 255 (first_line f))
   ∧ proper_prefix (name (load_state_at s path fs).2) (first_line f)
   ∧ version (load_state_at s path fs).2
     = c_str (take 255 (drop 255 (first_line f)))
   ∧ ((load_state s path fs).1 = 0%Z ↔ two_uints (after_long_name f)))
  ∧ (length (first_line f) ≤ 254 → 256 < length (second_line f) →
     load_state_at s path fs
     = scanned (drop 255 (after_first_line f))
         (set_version (c_str (take 255 (second_line f)))
            (set_name (c_str (first_line f)) s))
     ∧ ((load_state_at s path fs).1 = ExitOk
        ∨ (load_state_at s path fs).1 = ExitNumeric)
     ∧ version (load_state_at s path fs).2 = c_str (take 255 (second_line f))
     ∧ proper_prefix (version (load_state_at s path fs).2) (second_line f)
     ∧ ((load_state s path fs).1 = 0%Z
        ↔ two_uints (drop 255 (after_first_line f)))).
Proof.
  intros Hopen. split.
  - intros Hlong.
    pose proof (read_line_overlong f ltac:(lia)) as Hread.
    pose proof (read_line_text 255 f) as Hname. rewrite Hread in Hname.
    pose proof (read_line_text 255 (drop 255 f)) as Hversion.
    rewrite first_line_drop in Hversion by lia.
    pose proof (read_second_chunk f ltac:(lia)) as Hrest.
    destruct (read_line 255 (drop 255 f)) as [b2 f2] eqn:Hread2.
    cbn [fst snd] in Hname, Hversion, Hrest. subst f2.
    assert (length (first_line f) ≤ length f) as Hle
      by apply take_while_length.
    assert (f ≠ []) as Hf by (intros ->; simpl in Hlong; lia).
    assert (drop 255 f ≠ []) as Hf1.
    { intros Hnil. apply (f_equal length) in Hnil.
      rewrite length_drop in Hnil. simpl in Hnil. lia. }
    rewrite load_state_fst, exit_status_ok.
    rewrite (load_state_at_read s path fs f _ _ b2 _ Hopen Hf Hread Hf1 Hread2).
    rewrite Hname, Hversion.
    destruct (scanned_frame (after_long_name f)
                (set_version (c_str (take 255 (drop 255 (first_line f))))
                   (set_name (c_str (take 255 (first_line f))) s)))
      as (-> & -> & _). cbn [name version set_name set_version].
    split; [done|]. split; [apply scanned_exit|].
    split; [done|]. split; [apply proper_prefix_c_str_take; lia|].
    split; [done|]. apply scanned_ok_iff.
  - intros Hshort Hlong.
    assert (second_line f ≠ []) as Hne
      by (intros E; rewrite E in Hlong; simpl in Hlong; lia).
    pose proof (second_line_split f Hne) as Hf.
    pose proof (read_line_newline 255 (first_line f) (after_first_line f)
                  (first_line_no_newline f) ltac:(lia)) as Hread.
    rewrite <- Hf in Hread.
    pose proof (read_line_overlong (after_first_line f)) as Hread2.
    fold (second_line f) in Hread2. specialize (Hread2 ltac:(lia)).
    pose proof (read_line_text 255 (after_first_line f)) as Hversion.
    fold (second_line f) in Hversion. rewrite Hread2 in Hversion.
    cbn [fst] in Hversion.
    assert (f ≠ []) as Hf0 by (intros E; rewrite E in Hne; done).
    assert (after_first_line f ≠ []) as Hf1.
    { intros E. unfold second_line in Hne. rewrite E in Hne. done. }
    rewrite load_state_fst, exit_status_ok.
    rewrite (load_state_at_read s path fs f _ _ _ _ Hopen Hf0 Hread Hf1 Hread2).
    rewrite Hversion, (text_of_terminated_line _ (first_line_no_newline f)).
    destruct (scanned_frame (drop 255 (after_first_line f))
                (set_version (c_str (take 255 (second_line f)))
                   (set_name (c_str (first_line f)) s)))
      as (_ & -> & _). cbn [version set_version].
    split; [done|]. split; [apply scanned_exit|].
    split; [done|]. split; [apply proper_prefix_c_str_take; lia|].
    apply scanned_ok_iff.
Qed.

Lemma load_state_truncates_witness :
  (load_state_at agent_state "state.txt" (one_file "state.txt" two_long_lines)
   = scanned (after_long_name two_long_lines)
       (set_version (c_str (take 255 (drop 255 (first_line two_long_lines))))
          (set_name (c_str (take 255 (first_line two_long_lines))) agent_state))
   ∧ ((load_state_at agent_state "state.txt"
       (one_file "state.txt" two_long_lines)).1 = ExitOk
      ∨ (load_state_at agent_state "state.txt"
       (one_file "state.txt" two_long_lines)).1 = ExitNumeric)
   ∧ name (load_state_at agent_state "state.txt"
       (one_file "state.txt" two_long_lines)).2
     = c_str (take 255 (first_line two_long_lines))
   ∧ proper_prefix
       (name (load_state_at agent_state "state.txt"
       (one_file "state.txt" two_long_lines)).2)
       (first_line two_long_lines)
   ∧ version (load_state_at agent_state "state.txt"
       (one_file "state.txt" two_long_lines)).2
     = c_str (take 255 (drop 255 (first_line two_long_lines)))
   ∧ ((load_state agent_state "state.txt"
       (one_file "state.txt" two_long_lines)).1 = 0%Z
      ↔ two_uints (after_long_name two_long_lines)))
  ∧ (load_state_at agent_state "state.txt" (one_file "state.txt" name_line_with_numbers)
   = scanned (after_long_name name_line_with_numbers)
       (set_version (c_str (take 255 (drop 255 (first_line name_line_with_numbers))))
          (set_name (c_str (take 255 (first_line name_line_with_numbers))) agent_state))
   ∧ ((load_state_at agent_state "state.txt"
       (one_file "state.txt" name_line_with_numbers)).1 = ExitOk
      ∨ (load_state_at agent_state "state.txt"
       (one_file "state.txt" name_line_with_numbers)).1 = ExitNumeric)
   ∧ name (load_state_at agent_state "state.txt"
       (one_file "state.txt" name_line_with_numbers)).2
     = c_str (take 255 (first_line name_line_with_numbers))
   ∧ proper_prefix
       (name (load_state_at agent_state "state.txt"
       (one_file "state.txt" name_line_with_numbers)).2)
       (first_line name_line_with_numbers)
   ∧ version (load_state_at agent_state "state.txt"
       (one_file "state.txt" name_line_with_numbers)).2
     = c_str (take 255 (drop 255 (first_line name_line_with_numbers)))
   ∧ ((load_state agent_state "state.txt"
       (one_file "state.txt" name_line_with_numbers)).1 = 0%Z
      ↔ two_uints (after_long_name name_line_with_numbers)))
  ∧ (load_state_at agent_state "state.txt" (one_file "state.txt" long_version_line)
   = scanned (drop 255 (after_first_line long_version_line))
       (set_version (c_str (take 255 (second_line long_version_line)))
          (set_name (c_str (first_line long_version_line)) agent_state))
   ∧ ((load_state_at agent_state "state.txt"
       (one_file "state.txt" long_version_line)).1 = ExitOk
      ∨ (load_state_at agent_state "state.txt"
       (one_file "state.txt" long_version_line)).1 = ExitNumeric)
   ∧ version (load_state_at agent_state "state.txt"
       (one_file "state.txt" long_version_line)).2
     = c_str (take 255 (second_line long_version_line))
   ∧ proper_prefix
       (version (load_state_at agent_state "state.txt"
       (one_file "state.txt" long_version_line)).2)
       (second_line long_version_line)
   ∧ ((load_state agent_state "state.txt"
       (one_file "state.txt" long_version_line)).1 = 0%Z
      ↔ two_uints (drop 255 (after_first_line long_version_line)))).
Proof.
  split; [|split].
  - apply (load_state_truncates agent_state "state.txt"
             (one_file "state.txt" two_long_lines) two_long_lines eq_refl).
    apply Nat.ltb_lt. vm_compute. reflexivity.
  - apply (load_state_truncates agent_state "state.txt"
             (one_file "state.txt" name_line_with_numbers)
             name_line_with_numbers eq_refl).
    apply Nat.ltb_lt. vm_compute. reflexivity.
  - apply (load_state_truncates agent_state "state.txt"
             (one_file "state.txt" long_version_line) long_version_line
             eq_refl).
    + apply Nat.leb_le. vm_compute. reflexivity.
    + apply Nat.ltb_lt. vm_compute. reflexivity.
Defined.

(** C8, as stated, fails for the version line: when the name line is
    overlong too, the version field receives bytes 255 to 299 of the name
    line, which are no prefix of the version line. *)
Lemma version_is_not_cut_from_its_line :
  ¬ truncation_as_stated agent_state "state.txt"
      (one_file "state.txt" two_long_lines) two_long_lines.
Proof.
  intros H. destruct (H eq_refl) as [_ Hversion].
  destruct Hversion as (_ & [k Hk] & _).
  { apply Nat.ltb_lt. vm_compute. reflexivity. }
  vm_compute in Hk. discriminate Hk.
Qed.

(** * Further properties of [save_state] and [load_state] *)

(** ** Saving *)

Lemma filesystem_eq (a b : filesystem) :
  fs_files a = fs_files b → fs_readable a = fs_readable b →
  fs_writable a = fs_writable b → a = b.
Proof. destruct a, b. simpl. by intros -> -> ->. Qed.

(** X1: [save_state] replaces the file: saving a second record at the same
    path gives the result and the file system that saving it alone would
    have given, whatever the first record was.  In particular saving the
    same record twice is the same as saving it once. *)
Theorem save_state_last_writer_wins
  (s1 s2 : AppState) (path : string) (fs : filesystem) :
  save_state s2 path (save_state s1 path fs).2 = save_state s2 path fs.
Proof.
  destruct (fs_writable fs path) eqn:Hw.
  - rewrite (save_state_written s1) by done. cbn [snd].
    rewrite !save_state_written by done. f_equal.
    apply filesystem_eq; simpl; [|done|done].
    apply insert_insert_eq.
  - by rewrite (save_state_unwritable s1).
Qed.

Lemma utoa_inj m n : utoa m = utoa n → m = n.
Proof. intros H. by rewrite <- (utoa_value m), <- (utoa_value n), H. Qed.

Lemma format_state_inj s1 s2 :
  no_newline (name_str s1) → no_newline (version_str s1) →
  no_newline (name_str s2) → no_newline (version_str s2) →
  format_state s1 = format_state s2 →
  name_str s1 = name_str s2 ∧ version_str s1 = version_str s2
  ∧ pid s1 = pid s2 ∧ event_counter s1 = event_counter s2.
Proof.
  intros Hn1 Hv1 Hn2 Hv2 Heq. apply (f_equal lines) in Heq.
  rewrite !format_state_unlines in Heq.
  rewrite !lines_unlines in Heq
    by (repeat constructor; try done; apply utoa_no_lf).
  injection Heq as -> -> Hp He. auto using utoa_inj.
Qed.

(** X3: the encoding is injective on records without newlines.  For two
    records whose name and version strings hold no newline, [save_state]
    leaves the same bytes in the file exactly when the two records have the
    same name string, version string, pid and event_counter. *)
Theorem save_state_same_file_iff
  (s1 s2 : AppState) (path : string) (fs : filesystem) :
  no_newline (name_str s1) → no_newline (version_str s1) →
  no_newline (name_str s2) → no_newline (version_str s2) →
  fs_writable fs path = true →
  fs_files (save_state s1 path fs).2 !! path
  = fs_files (save_state s2 path fs).2 !! path
  ↔ name_str s1 = name_str s2 ∧ version_str s1 = version_str s2
    ∧ pid s1 = pid s2 ∧ event_counter s1 = event_counter s2.
Proof.
  intros Hn1 Hv1 Hn2 Hv2 Hw. rewrite !save_state_written by done. simpl.
  rewrite !lookup_insert_eq. split.
  - intros [= Heq]. by apply format_state_inj.
  - unfold name_str, version_str, format_state.
    by intros (-> & -> & -> & ->).
Qed.

Lemma save_state_same_file_iff_witness :
  fs_files (save_state agent_state "state.txt" (open_fs ∅)).2 !! "state.txt"
  = fs_files (save_state host_state "state.txt" (open_fs ∅)).2 !! "state.txt"
  ↔ name_str agent_state = name_str host_state
    ∧ version_str agent_state = version_str host_state
    ∧ pid agent_state = pid host_state
    ∧ event_counter agent_state = event_counter host_state.
Proof.
  apply (save_state_same_file_iff agent_state host_state "state.txt"
           (open_fs ∅)); reflexivity.
Defined.

(** X4: the file that [save_state] writes has four lines more than there
    are newline bytes in the name and version strings. *)
Theorem save_state_line_count
  (s : AppState) (path : string) (fs : filesystem) :
  fs_writable fs path = true →
  ∃ content,
    fs_files (save_state s path fs).2 !! path = Some content
    ∧ length (lines content)
      = 4 + newline_count (name_str s) + newline_count (version_str s).
Proof.
  intros Hw. exists (format_state s).
  rewrite save_state_written by done. simpl.
  split; [by rewrite lookup_insert_eq|apply format_state_line_count].
Qed.

Lemma save_state_line_count_witness :
  ∃ content,
    fs_files (save_state two_line_name_state "state.txt" (open_fs ∅)).2
      !! "state.txt" = Some content
    ∧ length (lines content)
      = 4 + newline_count (name_str two_line_name_state)
        + newline_count (version_str two_line_name_state).
Proof.
  apply (save_state_line_count two_line_name_state "state.txt" (open_fs ∅)).
  reflexivity.
Defined.

(** ** Loading: when it succeeds and what it leaves *)

Lemma exit_status_values e : exit_status e = 0%Z ∨ exit_status e = (-1)%Z.
Proof. destruct e; simpl; auto. Qed.

(** X5: [load_state] returns 0 or -1, and it returns 0 exactly when the
    file can be opened for reading, is not empty, has bytes left after the
    first [fgets], and what is left after the second [fgets] starts with two
    integers in the syntax of [%u]. *)
Theorem load_state_success_iff
  (s : AppState) (path : string) (fs : filesystem) :
  ((load_state s path fs).1 = 0%Z ∨ (load_state s path fs).1 = (-1)%Z)
  ∧ ((load_state s path fs).1 = 0%Z
     ↔ ∃ f, fopen_r path fs = Some f ∧ f ≠ [] ∧ after_name f ≠ []
            ∧ two_uints (numbers f)).
Proof.
  rewrite load_state_fst. split; [apply exit_status_values|].
  rewrite exit_status_ok.
  destruct (load_state_at_cases s path fs)
    as [[Hopen Heq]|[(f & Hopen & Hshort & Heq)|(f & Hopen & Hf & Hf1 & Heq)]];
    rewrite Heq.
  - split; [done|]. intros (f & Hf & _). congruence.
  - split; [done|]. intros (f' & Hopen' & Hf & Hf1 & _).
    assert (f' = f) as -> by congruence. by destruct Hshort.
  - rewrite scanned_ok_iff. split; [by exists f|].
    intros (f' & Hopen' & _ & _ & Htwo). by assert (f' = f) as -> by congruence.
Qed.

Lemma read_line_length room f : length (read_line room f).1 ≤ room.
Proof.
  revert f. induction room as [|room IH]; intros [|c f]; simpl; try lia.
  destruct (Ascii.eqb c LF); simpl; [lia|].
  specialize (IH f). destruct (read_line room f). simpl in *. lia.
Qed.

Lemma chunk_text_bound b :
  length b ≤ 255 →
  forallb text_byte (take_while text_byte b) = true
  ∧ length (take_while text_byte b) ≤ 255.
Proof.
  intros Hb. split; [apply take_while_forallb|].
  pose proof (take_while_length text_byte b). lia.
Qed.

Lemma to_uint32_bound n : (to_uint32 n < 2 ^ 32)%N.
Proof. unfold to_uint32. by apply N.mod_lt. Qed.

Lemma scan_u_bound f v r : scan_u f = Converted v r → (v < 2 ^ 32)%N.
Proof.
  unfold scan_u. destruct (drop_while isspace f) as [|c f']; [done|].
  destruct (take_while isdigit (if is_sign c then f' else c :: f'));
    [done|]. intros [= <- _]. apply to_uint32_bound.
Qed.

Lemma fscanf_u_u_bounds f s :
  (fscanf_u_u f s).1 = 2%Z →
  (pid (fscanf_u_u f s).2 < 2 ^ 32)%N
  ∧ (event_counter (fscanf_u_u f s).2 < 2 ^ 32)%N.
Proof.
  unfold fscanf_u_u.
  destruct (scan_u f) as [| |v1 f1] eqn:H1; [done|done|].
  destruct (scan_u (drop_while isspace f1)) as [| |v2 f2] eqn:H2;
    [done|done|]. simpl. eauto using scan_u_bound.
Qed.

Lemma scanned_ok_bounds f s :
  (scanned f s).1 = ExitOk →
  (pid (scanned f s).2 < 2 ^ 32)%N ∧ (event_counter (scanned f s).2 < 2 ^ 32)%N.
Proof.
  pose proof (fscanf_u_u_bounds f s) as H. unfold scanned.
  destruct (fscanf_u_u f s) as [n s']. simpl in *.
  destruct (Z.eqb_spec n 2); [auto|done].
Qed.

(** X6: the record left by a successful [load_state] is well formed: its
    name and version hold neither NUL nor newline and have at most 255 bytes
    each, and its pid and event_counter are below 2^32. *)
Theorem load_state_well_formed
  (s : AppState) (path : string) (fs : filesystem) :
  (load_state s path fs).1 = 0%Z →
  forallb text_byte (name (load_state s path fs).2) = true
  ∧ length (name (load_state s path fs).2) ≤ 255
  ∧ forallb text_byte (version (load_state s path fs).2) = true
  ∧ length (version (load_state s path fs).2) ≤ 255
  ∧ (pid (load_state s path fs).2 < 2 ^ 32)%N
  ∧ (event_counter (load_state s path fs).2 < 2 ^ 32)%N.
Proof.
  rewrite load_state_fst, load_state_snd, exit_status_ok.
  destruct (load_state_at_cases s path fs)
    as [[_ Heq]|[(f & _ & _ & Heq)|(f & _ & _ & _ & Heq)]];
    rewrite Heq; [done|done|]. intros Hok.
  destruct (scanned_frame (numbers f) (with_strings f s)) as (-> & -> & _).
  destruct (scanned_ok_bounds _ _ Hok) as [Hp He].
  destruct (chunk_text_bound (name_chunk f) (read_line_length 255 f))
    as [Hn1 Hn2].
  destruct (chunk_text_bound (version_chunk f)
              (read_line_length 255 (after_name f))) as [Hv1 Hv2].
  by repeat split.
Qed.

Lemma load_state_well_formed_witness :
  forallb text_byte
    (name (load_state host_state "state.txt"
             (one_file "state.txt" long_single_line)).2) = true
  ∧ length (name (load_state host_state "state.txt"
                    (one_file "state.txt" long_single_line)).2) ≤ 255
  ∧ forallb text_byte
      (version (load_state host_state "state.txt"
                  (one_file "state.txt" long_single_line)).2) = true
  ∧ length (version (load_state host_state "state.txt"
                       (one_file "state.txt" long_single_line)).2) ≤ 255
  ∧ (pid (load_state host_state "state.txt"
            (one_file "state.txt" long_single_line)).2 < 2 ^ 32)%N
  ∧ (event_counter (load_state host_state "state.txt"
                      (one_file "state.txt" long_single_line)).2 < 2 ^ 32)%N.
Proof.
  apply (load_state_well_formed host_state "state.txt"
           (one_file "state.txt" long_single_line)).
  vm_compute. reflexivity.
Defined.

Lemma fscanf_u_u_indep f s1 s2 :
  (fscanf_u_u f s1).1 = (fscanf_u_u f s2).1
  ∧ ((fscanf_u_u f s1).1 = 2%Z →
     pid (fscanf_u_u f s1).2 = pid (fscanf_u_u f s2).2
     ∧ event_counter (fscanf_u_u f s1).2 = event_counter (fscanf_u_u f s2).2).
Proof.
  unfold fscanf_u_u. destruct (scan_u f) as [| |v1 f1]; [done|done|].
  by destruct (scan_u (drop_while isspace f1)).
Qed.

Lemma scanned_indep f s1 s2 :
  (scanned f s1).1 = (scanned f s2).1
  ∧ ((scanned f s1).1 = ExitOk →
     pid (scanned f s1).2 = pid (scanned f s2).2
     ∧ event_counter (scanned f s1).2 = event_counter (scanned f s2).2).
Proof.
  destruct (fscanf_u_u_indep f s1 s2) as [H1 H2]. unfold scanned.
  destruct (fscanf_u_u f s1) as [n1 s1'], (fscanf_u_u f s2) as [n2 s2'].
  simpl in *. subst n2. destruct (Z.eqb_spec n1 2); simpl; [auto|done].
Qed.

(** X7: a successful [load_state] overwrites all four persisted fields:
    whether it succeeds does not depend on the record passed in, and the
    name, version, pid and event_counter it leaves are the same for any two
    records. *)
Theorem load_state_overwrites
  (s1 s2 : AppState) (path : string) (fs : filesystem) :
  (load_state s1 path fs).1 = 0%Z →
  (load_state s2 path fs).1 = 0%Z
  ∧ name (load_state s1 path fs).2 = name (load_state s2 path fs).2
  ∧ version (load_state s1 path fs).2 = version (load_state s2 path fs).2
  ∧ pid (load_state s1 path fs).2 = pid (load_state s2 path fs).2
  ∧ event_counter (load_state s1 path fs).2
    = event_counter (load_state s2 path fs).2.
Proof.
  rewrite !load_state_fst, !load_state_snd, !exit_status_ok.
  destruct (load_state_at_cases s1 path fs)
    as [[_ Heq]|[(f & _ & _ & Heq)|(f & Hopen & Hf & Hf1 & Heq)]];
    rewrite Heq; [done|done|]. intros Hok.
  destruct (load_state_at_cases s2 path fs)
    as [[Hopen' _]|[(f' & Hopen' & Hshort & _)|(f' & Hopen' & _ & _ & Heq')]].
  - congruence.
  - assert (f' = f) as -> by congruence. by destruct Hshort.
  - assert (f' = f) as -> by congruence. rewrite Heq'.
    destruct (scanned_indep (numbers f) (with_strings f s1)
                (with_strings f s2)) as [Hexit Hnum].
    destruct (Hnum Hok) as [Hp He].
    destruct (scanned_frame (numbers f) (with_strings f s1)) as (-> & -> & _).
    destruct (scanned_frame (numbers f) (with_strings f s2)) as (-> & -> & _).
    rewrite <- Hexit. done.
Qed.

Lemma load_state_overwrites_witness :
  (load_state blank_state "state.txt" (one_file "state.txt" agent_file)).1 = 0%Z
  ∧ name (load_state host_state "state.txt"
            (one_file "state.txt" agent_file)).2
    = name (load_state blank_state "state.txt"
              (one_file "state.txt" agent_file)).2
  ∧ version (load_state host_state "state.txt"
               (one_file "state.txt" agent_file)).2
    = version (load_state blank_state "state.txt"
                 (one_file "state.txt" agent_file)).2
  ∧ pid (load_state host_state "state.txt"
           (one_file "state.txt" agent_file)).2
    = pid (load_state blank_state "state.txt"
             (one_file "state.txt" agent_file)).2
  ∧ event_counter (load_state host_state "state.txt"
                     (one_file "state.txt" agent_file)).2
    = event_counter (load_state blank_state "state.txt"
                       (one_file "state.txt" agent_file)).2.
Proof.
  apply (load_state_overwrites host_state blank_state "state.txt"
           (one_file "state.txt" agent_file)).
  reflexivity.
Defined.

(** ** Loading: the inputs it accepts *)

Lemma isspace_not_digit c : isspace c = true → isdigit c = false.
Proof. by_cases_on_byte c. Qed.

Lemma space_run_stops_digits ws r :
  ws ≠ [] → forallb isspace ws = true → take_while isdigit (ws ++ r) = [].
Proof.
  destruct ws as [|c ws]; [done|]. simpl.
  intros _ [Hc _]%andb_prop. by rewrite (isspace_not_digit _ Hc).
Qed.

Lemma scan_u_spaced_digits ws ds r :
  forallb isspace ws = true → ds ≠ [] → forallb isdigit ds = true →
  take_while isdigit r = [] → (digits_value 0 ds < 2 ^ 32)%N →
  scan_u (ws ++ ds ++ r) = Converted (digits_value 0 ds) r.
Proof.
  intros Hws Hne Hds Hr Hv.
  by rewrite scan_u_skip, scan_u_digits, to_uint32_small.
Qed.

(** X8: what [load_state] takes from a file.  When the first two lines have
    at most 254 bytes each and are followed by optional white space, a run
    of digits, white space (blanks or newlines, at least one byte), a second
    run of digits and anything that does not start with a digit, with both
    numbers below 2^32, [load_state] returns 0; name and version are the
    strings of the two lines byte for byte (up to a NUL), pid and
    event_counter are the values of the two digit runs, and what follows
    them is ignored. *)
Theorem load_state_decodes
  (s : AppState) (path : string) (fs : filesystem)
  (l1 l2 ws1 ds1 ws2 ds2 tail : list ascii) :
  fopen_r path fs
  = Some (l1 ++ LF :: l2 ++ LF :: ws1 ++ ds1 ++ ws2 ++ ds2 ++ tail) →
  no_newline l1 → fits_buffer l1 → no_newline l2 → fits_buffer l2 →
  forallb isspace ws1 = true →
  ds1 ≠ [] → forallb isdigit ds1 = true → (digits_value 0 ds1 < 2 ^ 32)%N →
  ws2 ≠ [] → forallb isspace ws2 = true →
  ds2 ≠ [] → forallb isdigit ds2 = true → (digits_value 0 ds2 < 2 ^ 32)%N →
  take_while isdigit tail = [] →
  load_state s path fs
  = (0%Z, set_event_counter (digits_value 0 ds2)
            (set_pid (digits_value 0 ds1)
               (set_version (c_str l2) (set_name (c_str l1) s)))).
Proof.
  intros Hopen Hn1 Hf1 Hn2 Hf2 Hws1 Hne1 Hds1 Hv1 Hne2 Hws2 Hne3 Hds2 Hv2 Ht.
  unfold load_state.
  rewrite (load_state_at_two_lines s path fs l1 l2 _ Hopen) by done.
  unfold scanned, fscanf_u_u.
  rewrite scan_u_spaced_digits
    by auto using space_run_stops_digits.
  rewrite scan_u_drop_space, scan_u_spaced_digits by done.
  done.
Qed.

Lemma load_state_decodes_witness :
  load_state host_state "state.txt" (one_file "state.txt" one_line_numbers_file)
  = (0%Z, set_event_counter (digits_value 0 (bytes "7"))
            (set_pid (digits_value 0 (bytes "4242"))
               (set_version (c_str (bytes "1.0.0"))
                  (set_name (c_str (bytes "agent")) host_state)))).
Proof.
  apply (load_state_decodes host_state "state.txt"
           (one_file "state.txt" one_line_numbers_file)
           (bytes "agent") (bytes "1.0.0") [] (bytes "4242")
           (bytes " ") (bytes "7") [LF]);
    try reflexivity; try discriminate; unfold fits_buffer; simpl; lia.
Defined.

(** X9: the partial update of the numeric stage.  When the first two lines
    have at most 254 bytes each and are followed by one integer below 2^32
    and then by something that is no integer in the syntax of [%u],
    [load_state] returns -1 with name, version and pid already assigned from
    the file; event_counter and the other fields are as before. *)
Theorem load_state_partial_pid
  (s : AppState) (path : string) (fs : filesystem)
  (l1 l2 ws ds tail : list ascii) :
  fopen_r path fs = Some (l1 ++ LF :: l2 ++ LF :: ws ++ ds ++ tail) →
  no_newline l1 → fits_buffer l1 → no_newline l2 → fits_buffer l2 →
  forallb isspace ws = true →
  ds ≠ [] → forallb isdigit ds = true → (digits_value 0 ds < 2 ^ 32)%N →
  take_while isdigit tail = [] →
  (∀ r, ¬ parses_uint tail r) →
  load_state s path fs
  = ((-1)%Z, set_pid (digits_value 0 ds)
               (set_version (c_str l2) (set_name (c_str l1) s))).
Proof.
  intros Hopen Hn1 Hf1 Hn2 Hf2 Hws Hne Hds Hv Ht Hbad.
  unfold load_state.
  rewrite (load_state_at_two_lines s path fs l1 l2 _ Hopen) by done.
  unfold scanned, fscanf_u_u.
  rewrite scan_u_spaced_digits by done. rewrite scan_u_drop_space.
  destruct (scan_u tail) as [| |v r] eqn:Hscan; [done|done|].
  by apply scan_u_sound, Hbad in Hscan.
Qed.

Lemma load_state_partial_pid_witness :
  load_state host_state "state.txt" (one_file "state.txt" half_numeric_file)
  = ((-1)%Z, set_pid (digits_value 0 (bytes "12"))
               (set_version (c_str (bytes "v"))
                  (set_name (c_str (bytes "new")) host_state))).
Proof.
  apply (load_state_partial_pid host_state "state.txt"
           (one_file "state.txt" half_numeric_file)
           (bytes "new") (bytes "v") [] (bytes "12") (bytes " abc" ++ [LF]));
    try reflexivity; try discriminate;
    try (unfold fits_buffer; simpl; lia).
  intros r [v Hscan]%scan_u_complete. vm_compute in Hscan. discriminate Hscan.
Defined.

(** ** Loading what was saved from a loaded record *)

Lemma load_state_saved s s0 path fs :
  no_newline (name_str s) → no_newline (version_str s) →
  fits_buffer (name_str s) → fits_buffer (version_str s) →
  (pid s < 2 ^ 32)%N → (event_counter s < 2 ^ 32)%N →
  fs_writable fs path = true → fs_readable fs path = true →
  load_state s0 path (save_state s path fs).2
  = (0%Z, set_event_counter (event_counter s)
            (set_pid (pid s)
               (set_version (version_str s) (set_name (name_str s) s0)))).
Proof.
  intros Hn Hv Hnlen Hvlen Hp He Hw Hr.
  pose proof (fopen_r_saved s path fs Hw Hr) as Hopen.
  unfold format_state in Hopen. cbn [app] in Hopen.
  unfold load_state.
  rewrite (load_state_at_two_lines _ _ _ _ _ _ Hopen) by done.
  unfold scanned.
  rewrite (fscanf_u_u_written (pid s) (event_counter s)) by done.
  simpl. unfold name_str, version_str. by rewrite !c_str_idem.
Qed.

Lemma c_str_length l : length (c_str l) ≤ length l.
Proof. apply take_while_length. Qed.

Lemma c_str_no_newline l : no_newline l → no_newline (c_str l).
Proof.
  unfold no_newline, c_str. induction l as [|c l IH]; simpl; [done|].
  intros [Hc Hl]%andb_prop. destruct (not_nul c); simpl; [|done].
  by rewrite Hc, IH.
Qed.

(** X10: saving a loaded record and loading it again changes nothing.  When
    [load_state] returns 0 on a file whose first two lines have at most 254
    bytes each, then [save_state] of the loaded record at a path that can be
    written and read, followed by [load_state] there, returns 0 and gives
    the same name, version, pid and event_counter as the first load,
    whatever the spacing of the numbers in the first file was and whatever
    followed them. *)
Theorem load_state_after_resave
  (s0 s0' : AppState) (path path' : string) (fs fs' : filesystem)
  (l1 l2 rest : list ascii) :
  fopen_r path fs = Some (l1 ++ LF :: l2 ++ LF :: rest) →
  no_newline l1 → fits_buffer l1 → no_newline l2 → fits_buffer l2 →
  (load_state s0 path fs).1 = 0%Z →
  fs_writable fs' path' = true → fs_readable fs' path' = true →
  ∃ s2,
    load_state s0' path' (save_state (load_state s0 path fs).2 path' fs').2
    = (0%Z, s2)
    ∧ name s2 = name (load_state s0 path fs).2
    ∧ version s2 = version (load_state s0 path fs).2
    ∧ pid s2 = pid (load_state s0 path fs).2
    ∧ event_counter s2 = event_counter (load_state s0 path fs).2.
Proof.
  intros Hopen Hn1 Hf1 Hn2 Hf2 Hok Hw Hr.
  destruct (load_state_well_formed s0 path fs Hok) as (_ & _ & _ & _ & Hp & He).
  revert Hok Hp He. rewrite load_state_fst, load_state_snd.
  rewrite (load_state_at_two_lines s0 path fs l1 l2 rest Hopen) by done.
  intros _ Hp He.
  destruct (scanned_frame rest (set_version (c_str l2) (set_name (c_str l1) s0)))
    as (Hname & Hversion & _). simpl in Hname, Hversion.
  set (s1 := (scanned rest _).2) in *.
  assert (name_str s1 = c_str l1) as Hns
    by (unfold name_str; by rewrite Hname, c_str_idem).
  assert (version_str s1 = c_str l2) as Hvs
    by (unfold version_str; by rewrite Hversion, c_str_idem).
  unfold fits_buffer in *.
  rewrite (load_state_saved s1 s0' path' fs').
  - eexists. split; [done|]. simpl. by rewrite Hns, Hvs, Hname, Hversion.
  - rewrite Hns. by apply c_str_no_newline.
  - rewrite Hvs. by apply c_str_no_newline.
  - rewrite Hns. pose proof (c_str_length l1). unfold fits_buffer. lia.
  - rewrite Hvs. pose proof (c_str_length l2). unfold fits_buffer. lia.
  - done.
  - done.
  - done.
  - done.
Qed.

Lemma load_state_after_resave_witness :
  ∃ s2,
    load_state blank_state "copy.txt"
      (save_state
         (load_state host_state "state.txt"
            (one_file "state.txt" one_line_numbers_file)).2
         "copy.txt" (open_fs ∅)).2
    = (0%Z, s2)
    ∧ name s2 = name (load_state host_state "state.txt"
                        (one_file "state.txt" one_line_numbers_file)).2
    ∧ version s2 = version (load_state host_state "state.txt"
                              (one_file "state.txt" one_line_numbers_file)).2
    ∧ pid s2 = pid (load_state host_state "state.txt"
                      (one_file "state.txt" one_line_numbers_file)).2
    ∧ event_counter s2
      = event_counter (load_state host_state "state.txt"
                         (one_file "state.txt" one_line_numbers_file)).2.
Proof.
  apply (load_state_after_resave host_state blank_state "state.txt" "copy.txt"
           (one_file "state.txt" one_line_numbers_file) (open_fs ∅)
           (bytes "agent") (bytes "1.0.0") (bytes "4242 7" ++ [LF]));
    try reflexivity; unfold fits_buffer; simpl; lia.
Defined.

(** ** A newline inside the name *)

Lemma c_str_of_string_part l a b : c_str l = a ++ b → c_str a = a.
Proof.
  intros H. apply take_while_all.
  pose proof (take_while_forallb not_nul l) as Hall.
  fold (c_str l) in Hall. rewrite H, forallb_app in Hall.
  by apply andb_prop in Hall as [? _].
Qed.

Lemma c_str_of_string_tail l a c b : c_str l = a ++ c :: b → c_str b = b.
Proof.
  intros H. apply take_while_all.
  pose proof (take_while_forallb not_nul l) as Hall.
  fold (c_str l) in Hall. rewrite H, forallb_app in Hall. simpl in Hall.
  apply andb_prop in Hall as [_ Hall]. by apply andb_prop in Hall as [_ ?].
Qed.

(** X11: a newline inside the name shifts the fields on the way back.  When
    the name string of a record is two parts of at most 254 bytes each with
    one newline between them, [save_state] followed by [load_state] on the
    same path (one that can be written and read) leaves the first part in
    name and the second part in version, and the version that was saved is
    what the numeric stage scans. *)
Theorem newline_in_name_shifts_fields
  (s s0 : AppState) (path : string) (fs : filesystem) (n1 n2 : list ascii) :
  name_str s = n1 ++ LF :: n2 →
  no_newline n1 → fits_buffer n1 → no_newline n2 → fits_buffer n2 →
  fs_writable fs path = true → fs_readable fs path = true →
  name (load_state s0 path (save_state s path fs).2).2 = n1
  ∧ version (load_state s0 path (save_state s path fs).2).2 = n2
  ∧ ((load_state s0 path (save_state s path fs).2).1 = 0%Z
     ↔ two_uints (version_str s ++ [LF] ++ utoa (pid s) ++ [LF]
                  ++ utoa (event_counter s) ++ [LF])).
Proof.
  intros Hname Hn1 Hf1 Hn2 Hf2 Hw Hr.
  pose proof (fopen_r_saved s path fs Hw Hr) as Hopen.
  unfold format_state in Hopen. fold (name_str s) in Hopen.
  fold (version_str s) in Hopen.
  rewrite Hname, <- app_assoc in Hopen. cbn [app] in Hopen.
  rewrite load_state_fst, load_state_snd.
  rewrite (load_state_at_two_lines s0 path _ n1 n2 _ Hopen) by done.
  destruct (scanned_frame
              (version_str s ++ LF :: utoa (pid s) ++ LF
               :: utoa (event_counter s) ++ [LF])
              (set_version (c_str n2) (set_name (c_str n1) s0)))
    as (-> & -> & _). simpl.
  unfold name_str in Hname.
  rewrite (c_str_of_string_part _ _ _ Hname), (c_str_of_string_tail _ _ _ _ Hname).
  split; [done|]. split; [done|].
  rewrite exit_status_ok. apply scanned_ok_iff.
Qed.

Lemma newline_in_name_shifts_fields_witness :
  name (load_state host_state "state.txt"
          (save_state two_line_name_state "state.txt" (open_fs ∅)).2).2
  = bytes "two"
  ∧ version (load_state host_state "state.txt"
               (save_state two_line_name_state "state.txt" (open_fs ∅)).2).2
    = bytes "lines"
  ∧ ((load_state host_state "state.txt"
        (save_state two_line_name_state "state.txt" (open_fs ∅)).2).1 = 0%Z
     ↔ two_uints (version_str two_line_name_state ++ [LF]
                  ++ utoa (pid two_line_name_state) ++ [LF]
                  ++ utoa (event_counter two_line_name_state) ++ [LF])).
Proof.
  apply (newline_in_name_shifts_fields two_line_name_state host_state
           "state.txt" (open_fs ∅) (bytes "two") (bytes "lines"));
    try reflexivity; unfold fits_buffer; simpl; lia.
Defined.
